(** * Decode and probe core of [backend/server.py]

    A shallow embedding of the proxy-link decoders ([parse_config_name],
    [parse_ss], [parse_vless], [parse_vmess], [parse_trojan],
    [parse_config]), of the TCP prober ([test_tcp_connection]) and of the
    batch orchestrator ([test_batch]), together with the parts of the Python
    library the decoders call.

    Conventions.
    - A Python [str] is the list of its code points ([list N]); [bytes] is a
      list of numbers below 256.  [lit "..."] turns a literal into a [str].
    - A Python value of unknown type (what [json.loads] returns, what a
      request dictionary holds) is a [value].
    - Code that may raise returns a [result]; [try_except] is the
      [try: ... except Exception: ...] statement, which lets the exceptions
      that do not derive from [Exception] through.
    - The network, the clock and the event loop are the environment: their
      answers are arguments of the prober and labels of the steps of the
      batch. *)

From Stdlib Require Import ZArith NArith List String Ascii Bool Lia.
From stdpp Require Import base option list gmap.

Import ListNotations.

(** ** Python strings and exceptions *)

Module Py.

Definition char := N.
Definition str := list N.
Definition bytes := list N.

(** A string literal of the source. *)
Definition lit (s : string) : str :=
  map N_of_ascii (list_ascii_of_string s).

(** The exception classes the modelled code meets.  [KeyboardInterrupt],
    [SystemExit] and [CancelledError] derive from [BaseException] only. *)
Inductive exn :=
  | ValueError | TypeError | AttributeError | OverflowError
  | BinasciiError | JSONDecodeError | ValidationError
  | TimeoutError | ConnectionRefusedError | GaiError | OSError
  | RuntimeError
  | KeyboardInterrupt | SystemExit | CancelledError.

Definition is_Exception (e : exn) : bool :=
  match e with
  | KeyboardInterrupt | SystemExit | CancelledError => false
  | _ => true
  end.

Inductive result (A : Type) :=
  | Ok (a : A)
  | Raise (e : exn).
Arguments Ok {A} a.
Arguments Raise {A} e.

Definition bind {A B} (r : result A) (k : A -> result B) : result B :=
  match r with
  | Ok a => k a
  | Raise e => Raise e
  end.

#[global] Instance result_ret : MRet result := @Ok.
#[global] Instance result_bind : MBind result := fun A B k r => bind r k.

(** [try: body  except Exception: handler] *)
Definition try_except {A} (body : result A) (handler : exn -> result A)
  : result A :=
  match body with
  | Ok a => Ok a
  | Raise e => if is_Exception e then handler e else Raise e
  end.

(** [raises_Exception r]: whatever [r] raises derives from [Exception]. *)
Definition raises_Exception {A} (r : result A) : Prop :=
  match r with
  | Ok _ => True
  | Raise e => is_Exception e = true
  end.

(** *** Searching *)

(** [s.startswith(p)] *)
Fixpoint startswith (p s : str) : bool :=
  match p, s with
  | [], _ => true
  | _ :: _, [] => false
  | a :: p', b :: s' => N.eqb a b && startswith p' s'
  end.

(** [s.find(sep)], [None] for -1. *)
Fixpoint find (sep s : str) : option nat :=
  if startswith sep s then Some 0
  else match s with
       | [] => None
       | _ :: s' => S <$> find sep s'
       end.

(** [s.rfind(sep)], [None] for -1. *)
Fixpoint rfind (sep s : str) : option nat :=
  match s with
  | [] => if startswith sep s then Some 0 else None
  | _ :: s' =>
      match rfind sep s' with
      | Some i => Some (S i)
      | None => if startswith sep s then Some 0 else None
      end
  end.

(** [sep in s] *)
Definition contains (sep s : str) : bool :=
  match find sep s with Some _ => true | None => false end.

(** [s.index(sep)] *)
Definition index (sep s : str) : result nat :=
  match find sep s with Some i => Ok i | None => Raise ValueError end.

(** *** Splitting *)

(** [s.split(sep)] for a non-empty [sep]: [skip] counts the characters of a
    separator still to be passed over, [cur] is the piece being read. *)
Fixpoint split_from (sep s cur : str) (skip : nat) : list str :=
  match s with
  | [] => [cur]
  | c :: s' =>
      match skip with
      | S k => split_from sep s' cur k
      | O =>
          if startswith sep s
          then cur :: split_from sep s' [] (length sep - 1)
          else split_from sep s' (cur ++ [c]) 0
      end
  end.

Definition split (sep s : str) : list str := split_from sep s [] 0.

(** [s.split(sep, 1)]: one piece, or the two pieces around the first [sep]. *)
Definition split1 (sep s : str) : list str :=
  match find sep s with
  | Some i => [take i s; drop (i + length sep) s]
  | None => [s]
  end.

(** [s.rsplit(sep, 1)]: one piece, or the two pieces around the last [sep]. *)
Definition rsplit1 (sep s : str) : list str :=
  match rfind sep s with
  | Some i => [take i s; drop (i + length sep) s]
  | None => [s]
  end.

(** [s.replace(old, "")] for a non-empty [old]. *)
Fixpoint remove_from (old s : str) (skip : nat) : str :=
  match s with
  | [] => []
  | c :: s' =>
      match skip with
      | S k => remove_from old s' k
      | O =>
          if startswith old s
          then remove_from old s' (length old - 1)
          else c :: remove_from old s' 0
      end
  end.

Definition remove_all (old s : str) : str := remove_from old s 0.

(** [a, b = parts]: unpacking a list of exactly two pieces. *)
Definition unpack2 {A} (parts : list A) : result (A * A) :=
  match parts with
  | [a; b] => Ok (a, b)
  | _ => Raise ValueError
  end.

(** *** Stripping *)

Fixpoint lstrip_by (p : N -> bool) (s : str) : str :=
  match s with
  | [] => []
  | c :: s' => if p c then lstrip_by p s' else s
  end.

Definition rstrip_by (p : N -> bool) (s : str) : str :=
  rev (lstrip_by p (rev s)).

Definition strip_by (p : N -> bool) (s : str) : str :=
  rstrip_by p (lstrip_by p s).

(** The characters for which [str.isspace] holds. *)
Definition isspace (c : N) : bool :=
  ((9 <=? c) && (c <=? 13) || (28 <=? c) && (c <=? 32)
   || (c =? 133) || (c =? 160) || (c =? 5760)
   || (8192 <=? c) && (c <=? 8202)
   || (c =? 8232) || (c =? 8233) || (c =? 8239) || (c =? 8287)
   || (c =? 12288))%N.

(** [s.strip()] *)
Definition strip (s : str) : str := strip_by isspace s.

Definition one_of (chars : str) (c : N) : bool :=
  existsb (N.eqb c) chars.

(** [s.strip(chars)] and [s.rstrip(chars)] *)
Definition strip_chars (chars s : str) : str := strip_by (one_of chars) s.
Definition rstrip_chars (chars s : str) : str := rstrip_by (one_of chars) s.

(** *** Case *)

(** [str.lower] on one character.  The letters A-Z, and the two characters
    beyond them whose lower case has an ASCII letter: U+0130, which becomes
    "i" followed by U+0307, and the Kelvin sign U+212A, which becomes "k".
    Every other character is left as it is: its lower case has no ASCII
    character, which is all that the search for an ASCII tag in a lowered
    name depends on. *)
Definition lower_char (c : N) : str :=
  (if (65 <=? c) && (c <=? 90) then [c + 32]
   else if c =? 304 then [105; 775]
   else if c =? 8490 then [107]
   else [c])%N.

Definition lower (s : str) : str := flat_map lower_char s.

(** *** [int] of a string *)

(** White space that [int] skips around a numeral: the ASCII white space of
    C and the white space beyond ASCII. *)
Definition int_space (c : N) : bool :=
  ((9 <=? c) && (c <=? 13) || (c =? 32)
   || (128 <=? c) && isspace c)%N.

Definition is_digit (c : N) : bool := ((48 <=? c) && (c <=? 57))%N.

(** The digits zero of the decimal digits of Unicode 14, which CPython
    3.11 has: each is followed by the digits one to nine of its script. *)
Definition decimal_zeros : list N :=
  [48; 1632; 1776; 1984; 2406; 2534; 2662; 2790; 2918; 3046; 3174; 3302;
   3430; 3558; 3664; 3792; 3872; 4160; 4240; 6112; 6160; 6470; 6608; 6784;
   6800; 6992; 7088; 7232; 7248; 42528; 43216; 43264; 43472; 43504; 43600;
   44016; 65296; 66720; 68912; 69734; 69872; 69942; 70096; 70384; 70736;
   70864; 71248; 71360; 71472; 71904; 72016; 72784; 73040; 73120; 92768;
   92864; 93008; 120782; 120792; 120802; 120812; 120822; 123200; 123632;
   125264; 130032]%N.

(** The value of a decimal digit of any script, [None] for a character
    that is none. *)
Definition digit_value (c : N) : option N :=
  match List.find (fun z => (z <=? c) && (c <? z + 10))%N decimal_zeros with
  | Some z => Some (c - z)%N
  | None => None
  end.

(** Digits with single underscores between them; [acc] is the value read
    so far, [after_digit] tells whether the last character was a digit. *)
Fixpoint int_digits (s : str) (acc : Z) (after_digit : bool) : option Z :=
  match s with
  | [] => if after_digit then Some acc else None
  | c :: s' =>
      match digit_value c with
      | Some d => int_digits s' (10 * acc + Z.of_N d) true
      | None =>
          if (c =? 95)%N && after_digit then int_digits s' acc false
          else None
      end
  end.

(** The digits of a numeral, without its underscores. *)
Definition count_digits (s : str) : nat :=
  length (List.filter (fun c => bool_decide (digit_value c <> None)) s).

(** [sys.int_info.default_max_str_digits]: a numeral with more digits is
    refused. *)
Definition max_str_digits : nat := 4300.

(** A sign before the digits, or none: whether the numeral is negative,
    and its digits. *)
Definition split_sign (body : str) : bool * str :=
  match body with
  | 45%N :: ds => (true, ds)
  | 43%N :: ds => (false, ds)
  | _ => (false, body)
  end.

(** [int(s)] for a [str] *)
Definition int_of_str (s : str) : result Z :=
  let body := strip_by int_space s in
  let signed := split_sign body in
  match int_digits signed.2 0 false with
  | Some n =>
      if (max_str_digits <? count_digits signed.2)%nat then Raise ValueError
      else Ok (if signed.1 then - n else n)%Z
  | None => Raise ValueError
  end.

End Py.

(** ** [bytes.decode("utf-8", errors=...)] *)

Module Utf8.
Import Py.

(** The error handlers the code uses: ["ignore"] drops the offending bytes,
    ["replace"] puts U+FFFD in their place. *)
Inductive errors := Ignore | Replace.

(** One step of the decoder at the head of the input: a character and the
    number of bytes it took, or the number of bytes of an ill-formed
    sequence. *)
Inductive step :=
  | Decoded (cp : N) (n : nat)
  | Invalid (n : nat).

Definition is_continuation (b : N) : bool := (N.land b 192 =? 128)%N.

Definition decode_one (bs : bytes) : option step :=
  match bs with
  | [] => None
  | ch :: rest =>
      Some
        (if ch <? 128 then Decoded ch 1
         else if ch <? 194 then Invalid 1
         else if ch <? 224 then
           match rest with
           | [] => Invalid 1
           | ch2 :: _ =>
               if is_continuation ch2
               then Decoded (N.lor (N.shiftl (N.land ch 31) 6) (N.land ch2 63)) 2
               else Invalid 1
           end
         else if ch <? 240 then
           match rest with
           | [] => Invalid 1
           | ch2 :: rest2 =>
               if negb (is_continuation ch2)
                  || (if ch2 <? 160 then ch =? 224 else ch =? 237)
               then Invalid 1
               else
                 match rest2 with
                 | [] => Invalid 2
                 | ch3 :: _ =>
                     if is_continuation ch3
                     then Decoded
                            (N.lor (N.shiftl (N.land ch 15) 12)
                               (N.lor (N.shiftl (N.land ch2 63) 6)
                                  (N.land ch3 63))) 3
                     else Invalid 2
                 end
           end
         else if ch <? 245 then
           match rest with
           | [] => Invalid 1
           | ch2 :: rest2 =>
               if negb (is_continuation ch2)
                  || (if ch2 <? 144 then ch =? 240 else ch =? 244)
               then Invalid 1
               else
                 match rest2 with
                 | [] => Invalid 2
                 | ch3 :: rest3 =>
                     if negb (is_continuation ch3) then Invalid 2
                     else
                       match rest3 with
                       | [] => Invalid 3
                       | ch4 :: _ =>
                           if is_continuation ch4
                           then Decoded
                                  (N.lor (N.shiftl (N.land ch 7) 18)
                                     (N.lor (N.shiftl (N.land ch2 63) 12)
                                        (N.lor (N.shiftl (N.land ch3 63) 6)
                                           (N.land ch4 63)))) 4
                           else Invalid 3
                       end
                 end
           end
         else Invalid 1)%N
  end.

Definition on_error (h : errors) : str :=
  match h with
  | Ignore => []
  | Replace => [65533%N]
  end.

(** Every step takes at least one byte, so [length bs] steps are enough. *)
Fixpoint decode_steps (h : errors) (fuel : nat) (bs : bytes) : str :=
  match fuel with
  | O => []
  | S fuel' =>
      match decode_one bs with
      | None => []
      | Some (Decoded cp n) => cp :: decode_steps h fuel' (drop n bs)
      | Some (Invalid n) => on_error h ++ decode_steps h fuel' (drop n bs)
      end
  end.

(** [bs.decode("utf-8", errors=h)] *)
Definition decode (h : errors) (bs : bytes) : str :=
  decode_steps h (length bs) bs.

End Utf8.

(** ** [base64.b64decode] *)

Module Base64.
Import Py.

(** [binascii]'s table from a character to its six bits; [None] for a
    character outside the alphabet. *)
Definition table_a2b (c : N) : option N :=
  (if (65 <=? c) && (c <=? 90) then Some (c - 65)
   else if (97 <=? c) && (c <=? 122) then Some (c - 71)
   else if (48 <=? c) && (c <=? 57) then Some (c + 4)
   else if c =? 43 then Some 62
   else if c =? 47 then Some 63
   else None)%N.

Definition byte (n : N) : N := N.land n 255.

Definition cons_ok (b : N) (r : result bytes) : result bytes :=
  match r with
  | Ok bs => Ok (b :: bs)
  | Raise e => Raise e
  end.

(** The loop of [binascii.a2b_base64] without [strict_mode]: characters
    outside the alphabet are passed over, a pad that completes a group ends
    the decoding, input that ends inside a group is an error. *)
Fixpoint a2b_loop (data : bytes) (quad_pos : nat) (leftchar : N) (pads : nat)
  : result bytes :=
  match data with
  | [] =>
      match quad_pos with
      | O => Ok []
      | _ => Raise BinasciiError
      end
  | this_ch :: data' =>
      if (this_ch =? 61)%N then
        if (2 <=? quad_pos)%nat then
          if (4 <=? quad_pos + S pads)%nat then Ok []
          else a2b_loop data' quad_pos leftchar (S pads)
        else a2b_loop data' quad_pos leftchar pads
      else
        match table_a2b this_ch with
        | None => a2b_loop data' quad_pos leftchar pads
        | Some v =>
            match quad_pos with
            | 0 => a2b_loop data' 1 v 0
            | 1 =>
                cons_ok (byte (N.lor (N.shiftl leftchar 2) (N.shiftr v 4)))
                  (a2b_loop data' 2 (N.land v 15) 0)
            | 2 =>
                cons_ok (byte (N.lor (N.shiftl leftchar 4) (N.shiftr v 2)))
                  (a2b_loop data' 3 (N.land v 3) 0)
            | _ =>
                cons_ok (byte (N.lor (N.shiftl leftchar 6) v))
                  (a2b_loop data' 0 0%N 0)
            end
        end
  end.

Definition a2b_base64 (data : bytes) : result bytes := a2b_loop data 0 0%N 0.

(** [base64.b64decode(s)] for a [str]: the string is first encoded as
    ASCII, which fails with [ValueError] on any other character. *)
Definition b64decode (s : str) : result bytes :=
  if forallb (fun c => c <? 128)%N s then a2b_base64 s
  else Raise ValueError.

End Base64.

(** ** Python values and [int] *)

Module Value.
Import Py.

(** A [float] that was read from a decimal numeral: the double nearest to
    [m * 10^e], negated when [neg]; or one of the three special values. *)
Inductive float :=
  | Nan
  | Inf (neg : bool)
  | Dec (neg : bool) (m : N) (e : Z).

(** What [json.loads] returns, and what a request dictionary holds. *)
#[warnings="-register-all"]
Inductive value :=
  | VNone
  | VBool (b : bool)
  | VInt (z : Z)
  | VFloat (f : float)
  | VStr (s : str)
  | VList (l : list value)
  | VDict (d : gmap str value).

(** [d.get(key, default)] *)
Definition get (d : gmap str value) (key : str) (default : value) : value :=
  match d !! key with
  | Some v => v
  | None => default
  end.

(** The integer part of the double nearest to [m * 10^e] (ties to even), or
    [None] when that double is infinite.  Below one half the nearest double
    is at most one half; from one half on, the value is scaled to a 53-bit
    significand [q] with remainder [r] over [d], rounded, and scaled back. *)
Definition trunc_binary64 (m : N) (e : Z) : option Z :=
  (if (m =? 0)%N then Some 0
   else if 400 <? e then None
   else if Z.of_N (N.size m) <? - e then Some 0
   else
     let num := if 0 <=? e then Z.of_N m * 10 ^ e else Z.of_N m in
     let den := if 0 <=? e then 1 else 10 ^ (- e) in
     if 2 * num <? den then Some 0
     else
       let k0 := Z.log2 num - Z.log2 den in
       let k := if (if 0 <=? k0 then den * 2 ^ k0 <=? num
                    else den <=? num * 2 ^ (- k0))
                then k0 else k0 - 1 in
       let s := k - 52 in
       let n := if 0 <=? s then num else num * 2 ^ (- s) in
       let d := if 0 <=? s then den * 2 ^ s else den in
       let q := n / d in
       let r := n mod d in
       let q' := if (d <? 2 * r) || ((2 * r =? d) && Z.odd q)
                 then q + 1 else q in
       if 0 <=? s then
         if 2 ^ 1024 <=? q' * 2 ^ s then None else Some (q' * 2 ^ s)
       else Some (q' / 2 ^ (- s)))%Z.

(** [int(f)] for a [float] *)
Definition int_of_float (f : float) : result Z :=
  match f with
  | Nan => Raise ValueError
  | Inf _ => Raise OverflowError
  | Dec neg m e =>
      match trunc_binary64 m e with
      | Some n => Ok (if neg then - n else n)%Z
      | None => Raise OverflowError
      end
  end.

(** [int(v)] *)
Definition int (v : value) : result Z :=
  match v with
  | VInt z => Ok z
  | VBool b => Ok (if b then 1 else 0)%Z
  | VFloat f => int_of_float f
  | VStr s => int_of_str s
  | VNone | VList _ | VDict _ => Raise TypeError
  end.

Definition is_str (v : value) : bool :=
  match v with VStr _ => true | _ => false end.

(** [v.strip()]: an attribute of strings only. *)
Definition strip_value (v : value) : result str :=
  match v with
  | VStr s => Ok (Py.strip s)
  | _ => Raise AttributeError
  end.

End Value.

(** ** [json.loads] *)

Module Json.
Import Py Value.

Definition is_ws (c : N) : bool :=
  ((c =? 32) || (c =? 9) || (c =? 10) || (c =? 13))%N.

Definition skip_ws (s : str) : str := lstrip_by is_ws s.

Definition hex_val (c : N) : option N :=
  (if (48 <=? c) && (c <=? 57) then Some (c - 48)
   else if (97 <=? c) && (c <=? 102) then Some (c - 87)
   else if (65 <=? c) && (c <=? 70) then Some (c - 55)
   else None)%N.

Definition hex4 (a b c d : N) : option N :=
  match hex_val a, hex_val b, hex_val c, hex_val d with
  | Some a', Some b', Some c', Some d' =>
      Some (((a' * 16 + b') * 16 + c') * 16 + d')%N
  | _, _, _, _ => None
  end.

Definition is_high_surrogate (c : N) : bool := ((55296 <=? c) && (c <=? 56319))%N.
Definition is_low_surrogate (c : N) : bool := ((56320 <=? c) && (c <=? 57343))%N.
Definition join_surrogates (hi lo : N) : N :=
  (65536 + N.lor (N.shiftl (N.land hi 1023) 10) (N.land lo 1023))%N.

(** The character a one-letter escape stands for. *)
Definition simple_escape (c : N) : option N :=
  (if (c =? 34) || (c =? 92) || (c =? 47) then Some c
   else if c =? 98 then Some 8
   else if c =? 102 then Some 12
   else if c =? 110 then Some 10
   else if c =? 114 then Some 13
   else if c =? 116 then Some 9
   else None)%N.

Definition push (c : N) (r : result (str * str)) : result (str * str) :=
  match r with
  | Ok (s, rest) => Ok (c :: s, rest)
  | Raise e => Raise e
  end.

(** [scanstring], from the character after the opening quote: the string
    and what follows its closing quote. *)
Fixpoint scanstring (s : str) : result (str * str) :=
  match s with
  | [] => Raise JSONDecodeError
  | c :: rest =>
      if (c =? 34)%N then Ok ([], rest)
      else if (c =? 92)%N then
        match rest with
        | [] => Raise JSONDecodeError
        | e :: rest1 =>
            if (e =? 117)%N then
              match rest1 with
              | h1 :: h2 :: h3 :: h4 :: rest2 =>
                  match hex4 h1 h2 h3 h4 with
                  | None => Raise JSONDecodeError
                  | Some u =>
                      match rest2 with
                      | b :: u' :: g1 :: g2 :: g3 :: g4 :: rest3 =>
                          if is_high_surrogate u && (b =? 92)%N && (u' =? 117)%N
                          then
                            match hex4 g1 g2 g3 g4 with
                            | None => Raise JSONDecodeError
                            | Some u2 =>
                                if is_low_surrogate u2
                                then push (join_surrogates u u2) (scanstring rest3)
                                else push u (scanstring rest2)
                            end
                          else push u (scanstring rest2)
                      | _ => push u (scanstring rest2)
                      end
                  end
              | _ => Raise JSONDecodeError
              end
            else
              match simple_escape e with
              | Some c' => push c' (scanstring rest1)
              | None => Raise JSONDecodeError
              end
        end
      else if (c <? 32)%N then Raise JSONDecodeError
      else push c (scanstring rest)
  end.

Fixpoint span_digits (s : str) : str * str :=
  match s with
  | c :: s' =>
      if is_digit c then let '(ds, rest) := span_digits s' in (c :: ds, rest)
      else ([], s)
  | [] => ([], [])
  end.

Definition digits_value (ds : str) : N :=
  fold_left (fun acc c => 10 * acc + (c - 48))%N ds 0%N.

(** The fraction of a number: a dot followed by at least one digit. *)
Definition match_fraction (s : str) : str * str :=
  match s with
  | dot :: d :: _ =>
      if (dot =? 46)%N && is_digit d then span_digits (tl s) else ([], s)
  | _ => ([], s)
  end.

(** The exponent of a number: [e] or [E], a sign or none, and at least one
    digit; [None] when there is none, and the number ends before the [e]. *)
Definition match_exponent (s : str) : option (Z * str) :=
  match s with
  | e :: s1 =>
      if (e =? 101)%N || (e =? 69)%N then
        let '(neg, s2) :=
          match s1 with
          | sg :: s2 =>
              if (sg =? 45)%N then (true, s2)
              else if (sg =? 43)%N then (false, s2)
              else (false, s1)
          | [] => (false, s1)
          end in
        let '(ds, rest) := span_digits s2 in
        match ds with
        | [] => None
        | _ =>
            let x := Z.of_N (digits_value ds) in
            Some (if neg then - x else x, rest)%Z
        end
      else None
  | [] => None
  end.

(** A number: an integer numeral is an [int], which [int] refuses when it
    has more than [max_str_digits] digits; a numeral with a fraction or an
    exponent is a [float]. *)
Definition match_number (s : str) : result (value * str) :=
  let '(neg, s1) :=
    match s with
    | c :: s1 => if (c =? 45)%N then (true, s1) else (false, s)
    | [] => (false, s)
    end in
  match s1 with
  | [] => Raise JSONDecodeError
  | c :: s2 =>
      if is_digit c then
        let '(ids, s3) :=
          if (c =? 48)%N then ([c], s2)
          else let '(ds, rest) := span_digits s2 in (c :: ds, rest) in
        let '(fds, s4) := match_fraction s3 in
        match fds, match_exponent s4 with
        | [], None =>
            if (max_str_digits <? length ids)%nat then Raise ValueError
            else
              let n := Z.of_N (digits_value ids) in
              Ok (VInt (if neg then - n else n)%Z, s4)
        | _, None =>
            Ok (VFloat (Dec neg (digits_value (ids ++ fds))
                          (- Z.of_nat (length fds))), s4)
        | _, Some (x, s5) =>
            Ok (VFloat (Dec neg (digits_value (ids ++ fds))
                          (x - Z.of_nat (length fds))), s5)
        end
      else Raise JSONDecodeError
  end.

(** The scanner.  Every call takes one unit of [fuel]; [loads] gives more
    than the scan of its input can use, so that it never runs out.  The
    interpreter raises [RecursionError], a subclass of [RuntimeError], on
    an input nested deeper than its stack allows; how deep that is depends
    on the frames in use when [json.loads] is called, and the scanner here
    has no such bound. *)
Fixpoint scan_once (fuel : nat) (s : str) {struct fuel}
  : result (value * str) :=
  match fuel with
  | O => Raise RuntimeError
  | S fuel' =>
      match s with
      | [] => Raise JSONDecodeError
      | c :: rest =>
          if (c =? 34)%N then
            '(k, rest') ← scanstring rest; Ok (VStr k, rest')
          else if (c =? 123)%N then
            match skip_ws rest with
            | c' :: rest' =>
                if (c' =? 125)%N then Ok (VDict ∅, rest')
                else parse_object fuel' (skip_ws rest) ∅
            | [] => Raise JSONDecodeError
            end
          else if (c =? 91)%N then
            match skip_ws rest with
            | c' :: rest' =>
                if (c' =? 93)%N then Ok (VList [], rest')
                else parse_array fuel' (skip_ws rest) []
            | [] => Raise JSONDecodeError
            end
          else if startswith (lit "null") s then Ok (VNone, drop 4 s)
          else if startswith (lit "true") s then Ok (VBool true, drop 4 s)
          else if startswith (lit "false") s then Ok (VBool false, drop 5 s)
          else if startswith (lit "NaN") s then Ok (VFloat Nan, drop 3 s)
          else if startswith (lit "Infinity") s
          then Ok (VFloat (Inf false), drop 8 s)
          else if startswith (lit "-Infinity") s
          then Ok (VFloat (Inf true), drop 9 s)
          else match_number s
      end
  end

(** The members of an object from a key on; [acc] holds those read so far
    and a repeated key keeps its last value. *)
with parse_object (fuel : nat) (s : str) (acc : gmap str value) {struct fuel}
  : result (value * str) :=
  match fuel with
  | O => Raise RuntimeError
  | S fuel' =>
      match s with
      | q :: s1 =>
          if (q =? 34)%N then
            bind (scanstring s1) (fun '(key, s2) =>
              match skip_ws s2 with
              | colon :: s3 =>
                  if (colon =? 58)%N then
                    bind (scan_once fuel' (skip_ws s3)) (fun '(v, s4) =>
                      let acc' := <[key := v]> acc in
                      match skip_ws s4 with
                      | c :: s5 =>
                          if (c =? 125)%N then Ok (VDict acc', s5)
                          else if (c =? 44)%N
                          then parse_object fuel' (skip_ws s5) acc'
                          else Raise JSONDecodeError
                      | [] => Raise JSONDecodeError
                      end)
                  else Raise JSONDecodeError
              | [] => Raise JSONDecodeError
              end)
          else Raise JSONDecodeError
      | [] => Raise JSONDecodeError
      end
  end

(** The elements of an array from an element on. *)
with parse_array (fuel : nat) (s : str) (acc : list value) {struct fuel}
  : result (value * str) :=
  match fuel with
  | O => Raise RuntimeError
  | S fuel' =>
      bind (scan_once fuel' s) (fun '(v, s1) =>
        let acc' := acc ++ [v] in
        match skip_ws s1 with
        | c :: s2 =>
            if (c =? 93)%N then Ok (VList acc', s2)
            else if (c =? 44)%N then parse_array fuel' (skip_ws s2) acc'
            else Raise JSONDecodeError
        | [] => Raise JSONDecodeError
        end)
  end.

(** [json.loads(s)] for a [str] *)
Definition loads (s : str) : result value :=
  if startswith [65279%N] s then Raise JSONDecodeError
  else
    bind (scan_once (2 * length s + 2) (skip_ws s)) (fun '(v, rest) =>
      match skip_ws rest with
      | [] => Ok v
      | _ :: _ => Raise JSONDecodeError
      end).

End Json.

(** ** [urllib.parse.unquote] *)

Module Urllib.
Import Py.

(** The table [_hextobyte]: two hexadecimal digits, of either case. *)
Definition hextobyte (item : str) : option N :=
  match item with
  | [a; b] =>
      match Json.hex_val a, Json.hex_val b with
      | Some a', Some b' => Some (16 * a' + b')%N
      | _, _ => None
      end
  | _ => None
  end.

(** [unquote_to_bytes(s)] for a [str] of ASCII characters: the pieces after
    each percent sign lose two leading hexadecimal digits to one byte, or
    keep their percent sign. *)
Definition unquote_to_bytes (s : str) : bytes :=
  match split (lit "%") s with
  | [] => []
  | first :: items =>
      first ++
      flat_map (fun item =>
                  match hextobyte (take 2 item) with
                  | Some b => b :: drop 2 item
                  | None => 37%N :: item
                  end) items
  end.

Definition unquote_run (run : str) : str :=
  Utf8.decode Utf8.Replace (unquote_to_bytes run).

(** The string is cut into its runs of ASCII characters and the
    characters between them; [run] is the ASCII run being read. *)
Fixpoint unquote_runs (s run : str) : str :=
  match s with
  | [] => unquote_run run
  | c :: s' =>
      if (c <? 128)%N then unquote_runs s' (run ++ [c])
      else unquote_run run ++ c :: unquote_runs s' []
  end.

(** [unquote(s)], with its defaults [encoding='utf-8', errors='replace'] *)
Definition unquote (s : str) : str :=
  if contains (lit "%") s then unquote_runs s [] else s.

End Urllib.

(** ** The decoders of [server.py] *)

Module Server.
Import Py Value.

(** The dictionary a decoder returns. *)
Record config := Config {
  protocol : str;
  server : str;
  port : Z;
  name : str;
  country : str;
  telegram_channel : option str;
  is_telegram : bool
}.

Definition telegram_tags : list str :=
  [lit "telegram"; lit "tel@"; lit "t.me/"].

(** [parts[0]] and [parts[-1]] of the pieces of a split, which are never
    none. *)
Definition first_part (parts : list str) : str := hd [] parts.
Definition last_part (parts : list str) : str := List.last parts [].

Definition parse_config_name (fragment : str)
  : result (str * str * option str * bool) :=
  let decoded := Urllib.unquote fragment in
  let name := decoded in
  let country := [] in
  let '(name, country) :=
    if contains (lit "::") decoded then
      let parts := rsplit1 (lit "::") decoded in
      (strip (first_part parts), strip (last_part parts))
    else (name, country) in
  let name :=
    if contains (lit ">>") name
    then strip (remove_all (lit ">>") name)
    else name in
  let clean_name := strip name in
  '(telegram_channel, is_telegram) ←
    (if startswith (lit "@") clean_name then Ok (Some clean_name, true)
     else if existsb (fun tag => contains tag (lower clean_name)) telegram_tags
     then Ok (Some clean_name, true)
     else if contains (lit "@") clean_name then
       i ← index (lit "@") clean_name;
       let at_part := drop i clean_name in
       match at_part with
       | [] => Ok (None, false)
       | _ :: _ =>
           Ok (Some (strip (first_part (split (lit ":")
                                (first_part (split (lit "::") at_part))))),
               true)
       end
     else Ok (None, false));
  Ok (name, country, telegram_channel, is_telegram).

(** [parse_config_name(ps)] when [ps] comes out of a JSON object.  Anything
    but a string fails inside [unquote] or at the first string method:
    [TypeError] for [None] and the numbers, [AttributeError] (in one case
    [TypeError]) for a list or a dictionary. *)
Definition parse_config_name_of (ps : value)
  : result (str * str * option str * bool) :=
  match ps with
  | VStr s => parse_config_name s
  | VList _ | VDict _ => Raise AttributeError
  | VNone | VBool _ | VInt _ | VFloat _ => Raise TypeError
  end.

(** [data.get(key, default)] on an arbitrary value: only a dictionary has
    the method. *)
Definition get_of (data : value) (key : str) (default : value)
  : result value :=
  match data with
  | VDict d => Ok (get d key default)
  | _ => Raise AttributeError
  end.

(** [rest, fragment = rest.split("#", 1)] when there is a [#]. *)
Definition split_fragment (rest : str) : result (str * str) :=
  if contains (lit "#") rest then unpack2 (split1 (lit "#") rest)
  else Ok (rest, []).

(** [server, port = server_part.rsplit(":", 1); port = int(port)] *)
Definition split_host_port (server_part : str) : result (str * Z) :=
  '(server, port) ← unpack2 (rsplit1 (lit ":") server_part);
  port ← int_of_str port;
  Ok (server, port).

(** The end of every decoder: the label is parsed and the dictionary
    built. *)
Definition make_config (proto : string) (server : str) (port : Z)
    (fragment : str) : result (option config) :=
  '(name, country, telegram_channel, is_telegram) ← parse_config_name fragment;
  Ok (Some (Config (lit proto) (strip server) port name country
                   telegram_channel is_telegram)).

(** The body of the [try] of [parse_ss]; [None] inside [located] is an
    early [return None].  [padded] is what is done to the body before it is
    handed to [b64decode]: the code appends two pad characters. *)
Definition parse_ss_with (padded : str -> str) (config_str : str)
  : result (option config) :=
  let rest := drop 5 config_str in
  '(rest, fragment) ← split_fragment rest;
  located ←
    (if contains (lit "@") rest then
       '(encoded_part, server_part) ← unpack2 (rsplit1 (lit "@") rest);
       let server_part :=
         first_part (split (lit "?") (rstrip_chars (lit "/") server_part)) in
       if contains (lit ":") server_part
       then hp ← split_host_port server_part; Ok (Some hp)
       else Ok None
     else
       raw ← Base64.b64decode (padded rest);
       let decoded := Utf8.decode Utf8.Ignore raw in
       if contains (lit "@") decoded then
         '(_, server_part) ← unpack2 (rsplit1 (lit "@") decoded);
         if contains (lit ":") server_part
         then hp ← split_host_port server_part; Ok (Some hp)
         else Ok None
       else Ok None);
  match located with
  | None => Ok None
  | Some (server, port) => make_config "shadowsocks" server port fragment
  end.

Definition parse_ss_body (config_str : str) : result (option config) :=
  parse_ss_with (fun rest => rest ++ lit "==") config_str.

Definition parse_ss (config_str : str) : result (option config) :=
  try_except (parse_ss_body config_str) (fun _ => Ok None).

Definition parse_vless_body (config_str : str) : result (option config) :=
  let rest := drop 8 config_str in
  '(rest, fragment) ← split_fragment rest;
  if contains (lit "@") rest then
    '(_, server_part) ← unpack2 (split1 (lit "@") rest);
    let server_part :=
      rstrip_chars (lit "/") (first_part (split (lit "?") server_part)) in
    '(server, port) ←
      (if startswith (lit "[") server_part then
         bracket_end ← index (lit "]") server_part;
         let server := take (bracket_end + 1) server_part in
         let port_part := drop (bracket_end + 1) server_part in
         if startswith (lit ":") port_part then
           port ← int_of_str (drop 1 port_part);
           Ok (server, port)
         else Ok (server, 443%Z)
       else if contains (lit ":") server_part
       then split_host_port server_part
       else Ok (server_part, 443%Z));
    make_config "vless" server port fragment
  else Ok None.

Definition parse_vless (config_str : str) : result (option config) :=
  try_except (parse_vless_body config_str) (fun _ => Ok None).

(** The first lines of the body of [parse_vmess]: the text after the
    prefix, padded to a multiple of 4. *)
Definition vmess_encoded (config_str : str) : str :=
  let encoded := drop 8 config_str in
  let padding := 4 - length encoded mod 4 in
  if (padding =? 4)%nat then encoded
  else encoded ++ replicate padding 61%N.

(** The payload, from the line to the value [json.loads] returns. *)
Definition vmess_payload (config_str : str) : result value :=
  let encoded := vmess_encoded config_str in
  raw ← Base64.b64decode encoded;
  let decoded := Utf8.decode Utf8.Ignore raw in
  Json.loads decoded.

Definition parse_vmess_body (config_str : str) : result (option config) :=
  data ← vmess_payload config_str;
  server ← get_of data (lit "add") (VStr []);
  port ← get_of data (lit "port") (VInt 443) ≫= int;
  ps ← get_of data (lit "ps") (VStr []);
  '(name, country, telegram_channel, is_telegram) ← parse_config_name_of ps;
  server ← strip_value server;
  Ok (Some (Config (lit "vmess") server port name country
                   telegram_channel is_telegram)).

Definition parse_vmess (config_str : str) : result (option config) :=
  try_except (parse_vmess_body config_str) (fun _ => Ok None).

Definition parse_trojan_body (config_str : str) : result (option config) :=
  let rest := drop 9 config_str in
  '(rest, fragment) ← split_fragment rest;
  if contains (lit "@") rest then
    '(_, server_part) ← unpack2 (split1 (lit "@") rest);
    let server_part :=
      rstrip_chars (lit "/") (first_part (split (lit "?") server_part)) in
    '(server, port) ←
      (if contains (lit ":") server_part
       then split_host_port server_part
       else Ok (server_part, 443%Z));
    make_config "trojan" server port fragment
  else Ok None.

Definition parse_trojan (config_str : str) : result (option config) :=
  try_except (parse_trojan_body config_str) (fun _ => Ok None).

Definition parse_config (raw : str) : result (option config) :=
  let raw := strip raw in
  if startswith (lit "ss://") raw then parse_ss raw
  else if startswith (lit "vless://") raw then parse_vless raw
  else if startswith (lit "vmess://") raw then parse_vmess raw
  else if startswith (lit "trojan://") raw then parse_trojan raw
  else Ok None.

End Server.

(** ** The prober *)

Module Prober.
Import Py Value.

(** What can go wrong on the network: the connection attempt times out, is
    refused, the name does not resolve, or any other error of the transport
    or the event loop.  All of them derive from [Exception]. *)
Inductive fault := Timeout | Refused | DnsFailure | OtherFault (e : exn).

Definition exn_of_fault (f : fault) : exn :=
  match f with
  | Timeout => TimeoutError
  | Refused => ConnectionRefusedError
  | DnsFailure => GaiError
  | OtherFault e => if is_Exception e then e else OSError
  end.

Definition await (outcome : option fault) : result () :=
  match outcome with
  | None => Ok ()
  | Some f => Raise (exn_of_fault f)
  end.

(** The answers of the environment during one call: the two readings of
    the clock, the outcome of
    [await asyncio.wait_for(asyncio.open_connection(host, port), timeout)]
    and the outcome of [await writer.wait_closed()].  [writer.close()] only
    schedules the closing and does not fail. *)
Record probe_env := ProbeEnv {
  time_start : float;
  open_connection : str -> value -> float -> option fault;
  time_connected : float;
  wait_closed : option fault
}.

(** The second component of the tuple: a [float] on success, the [int] -1
    on failure. *)
Inductive number :=
  | Int (z : Z)
  | Float (f : float).

(** [server.strip("[]")]: an attribute of strings only. *)
Definition strip_brackets (server : value) : result str :=
  match server with
  | VStr s => Ok (strip_chars (lit "[]") s)
  | _ => Raise AttributeError
  end.

Section Arithmetic.

(** Floating-point arithmetic is named, not computed:
    [elapsed_ms now start] is [(now - start) * 1000] and [round1 x] is
    [round(x, 1)]. *)
Variable elapsed_ms : float -> float -> float.
Variable round1 : float -> float.

Definition test_tcp_connection (env : probe_env) (server port : value)
    (timeout : float) : result (bool * number) :=
  try_except
    (clean_server ← strip_brackets server;
     let start := time_start env in
     _ ← await (open_connection env clean_server port timeout);
     let latency := elapsed_ms (time_connected env) start in
     _ ← try_except (await (wait_closed env)) (fun _ => Ok ());
     Ok (true, Float (round1 latency)))
    (fun _ => Ok (false, Int (-1))).

End Arithmetic.

End Prober.

(** ** The batch *)

Module Batch.
Import Py Value Prober.

(** The model [TestResult]. *)
Record TestResult := {
  config_id : str;
  protocol : str;
  server : str;
  port : Z;
  name : str;
  country : str;
  telegram_channel : option str;
  is_telegram : bool;
  success : bool;
  latency_ms : float;
  tested_at : str
}.

(** The validation pydantic runs when a [TestResult] is built.  Every
    version takes a value of the declared type as it is and refuses [None]
    for a field that is not [Optional].  What it makes of a value of
    another type -- the numeral ["54051"] for an [int], say -- differs with
    the version and the mode: that is given, as a conversion or none. *)
Record conversions := Conversions {
  to_str : value -> option str;
  to_int : value -> option Z;
  to_bool : value -> option bool
}.

Definition converted {A} (o : option A) : result A :=
  match o with
  | Some a => Ok a
  | None => Raise ValidationError
  end.

(** A [float] field takes a [float], and an [int] as the [float] of the
    same value. *)
Definition validate_float (n : number) : float :=
  match n with
  | Float f => f
  | Int z => Dec (z <? 0)%Z (Z.abs_N z) 0
  end.

Definition config := gmap str value.

Definition is_Ok {A} (r : result A) : bool :=
  match r with
  | Ok _ => true
  | Raise _ => false
  end.

Section Validation.

Variable pydantic : conversions.

Definition validate_str (v : value) : result str :=
  match v with
  | VStr s => Ok s
  | VNone => Raise ValidationError
  | _ => converted (to_str pydantic v)
  end.

Definition validate_int (v : value) : result Z :=
  match v with
  | VInt z => Ok z
  | VNone => Raise ValidationError
  | _ => converted (to_int pydantic v)
  end.

Definition validate_bool (v : value) : result bool :=
  match v with
  | VBool b => Ok b
  | VNone => Raise ValidationError
  | _ => converted (to_bool pydantic v)
  end.

Definition validate_optional_str (v : value) : result (option str) :=
  match v with
  | VNone => Ok None
  | VStr s => Ok (Some s)
  | _ => s ← converted (to_str pydantic v); Ok (Some s)
  end.

(** The request dictionaries [TestResult] takes: each value [test_one]
    reads, a missing key taking its default, passes the validation of its
    field. *)
Definition accepted (cfg : config) : bool :=
  is_Ok (validate_str (get cfg (lit "id") (VStr [])))
  && is_Ok (validate_str (get cfg (lit "protocol") (VStr [])))
  && is_Ok (validate_str (get cfg (lit "server") (VStr [])))
  && is_Ok (validate_int (get cfg (lit "port") (VInt 443)))
  && is_Ok (validate_str (get cfg (lit "name") (VStr [])))
  && is_Ok (validate_str (get cfg (lit "country") (VStr [])))
  && is_Ok (validate_optional_str (get cfg (lit "telegram_channel") VNone))
  && is_Ok (validate_bool (get cfg (lit "is_telegram") (VBool false))).

Section Arithmetic.

Variable elapsed_ms : float -> float -> float.
Variable round1 : float -> float.

(** [test_one(cfg)]; [now] is [datetime.now(timezone.utc).isoformat()].
    The prober gets the server and the port as the dictionary has them;
    [success], the latency and the time are of the types of their
    fields. *)
Definition test_one (env : probe_env) (now : str) (cfg : config)
  : result TestResult :=
  let server := get cfg (lit "server") (VStr []) in
  let port := get cfg (lit "port") (VInt 443) in
  '(success, latency) ←
    test_tcp_connection elapsed_ms round1 env server port (Dec false 3 0);
  config_id ← validate_str (get cfg (lit "id") (VStr []));
  protocol ← validate_str (get cfg (lit "protocol") (VStr []));
  server ← validate_str server;
  port ← validate_int port;
  name ← validate_str (get cfg (lit "name") (VStr []));
  country ← validate_str (get cfg (lit "country") (VStr []));
  telegram_channel ←
    validate_optional_str (get cfg (lit "telegram_channel") VNone);
  is_telegram ← validate_bool (get cfg (lit "is_telegram") (VBool false));
  Ok {| config_id := config_id; protocol := protocol; server := server;
        port := port; name := name; country := country;
        telegram_channel := telegram_channel; is_telegram := is_telegram;
        success := success; latency_ms := validate_float latency;
        tested_at := now |}.

(** A task [limited_test(cfg)]: it waits for the semaphore, holds it while
    [test_one] runs, and is done once it has released it, with the result
    of [test_one] or the exception it raised. *)
Inductive task :=
  | Waiting
  | Running
  | Done (outcome : result TestResult).

Definition is_running (t : task) : bool :=
  match t with
  | Running => true
  | _ => false
  end.

Definition running (t : task) : nat := if is_running t then 1 else 0.

(** The batch between the creation of the tasks and the return of
    [gather]: [semaphore] is the counter of [asyncio.Semaphore(10)]. *)
Record state := State {
  semaphore : nat;
  tasks : list task
}.

Definition init (configs : list config) : state :=
  State 10 (replicate (length configs) Waiting).

(** What the event loop does next: task [i] enters [async with semaphore],
    or task [i] leaves it, [test_one] having run in the environment [env]
    and ended at the time [now]. *)
Inductive event :=
  | Acquire (i : nat)
  | Release (i : nat) (env : probe_env) (now : str).

Definition step (configs : list config) (st : state) (ev : event)
  : option state :=
  match ev with
  | Acquire i =>
      match tasks st !! i, semaphore st with
      | Some Waiting, S v => Some (State v (<[i := Running]> (tasks st)))
      | _, _ => None
      end
  | Release i env now =>
      match tasks st !! i, configs !! i with
      | Some Running, Some cfg =>
          Some (State (S (semaphore st))
                      (<[i := Done (test_one env now cfg)]> (tasks st)))
      | _, _ => None
      end
  end.

Fixpoint run (configs : list config) (st : state) (evs : list event)
  : option state :=
  match evs with
  | [] => Some st
  | ev :: evs' =>
      match step configs st ev with
      | Some st' => run configs st' evs'
      | None => None
      end
  end.

(** [await asyncio.gather] over the tasks: nothing while some task is neither done
    nor failed, the exception of a task that raised, the results in the
    order of the tasks once all are done. *)
Fixpoint gather (ts : list task) : option (result (list TestResult)) :=
  match ts with
  | [] => Some (Ok [])
  | t :: ts' =>
      match t, gather ts' with
      | Done (Raise e), _ => Some (Raise e)
      | _, Some (Raise e) => Some (Raise e)
      | Done (Ok r), Some (Ok rs) => Some (Ok (r :: rs))
      | _, _ => None
      end
  end.

(** The answer to the [update_one] for the [k]-th result: nothing, or the
    exception of the store or of its driver, which refuses what it cannot
    encode, as an integer beyond eight bytes. *)
Variable store : nat -> TestResult -> option exn.

(** The loop that saves the results, from the [k]-th on: it is outside any
    [try], so the first exception ends it and leaves [test_batch]. *)
Fixpoint save_from (k : nat) (results : list TestResult) : result () :=
  match results with
  | [] => Ok ()
  | r :: results' =>
      match store k r with
      | Some e => Raise e
      | None => save_from (S k) results'
      end
  end.

(** [test_batch(req)] after the events [evs]: nothing while the join
    waits, the exception of a task or of the store, or [results] once all
    are saved. *)
Definition test_batch (configs : list config) (evs : list event)
  : option (result (list TestResult)) :=
  match run configs (init configs) evs with
  | Some st =>
      match gather (tasks st) with
      | Some (Ok results) => Some (_ ← save_from 0 results; Ok results)
      | Some (Raise e) => Some (Raise e)
      | None => None
      end
  | None => None
  end.

(** What every state of a run has: a task for each dictionary, as many
    free slots and probes in flight as the semaphore has slots, and for
    each task that is done the outcome of [test_one] on the dictionary at
    its place. *)
Record invariant (configs : list config) (st : state) : Prop := {
  inv_length : length (tasks st) = length configs;
  inv_slots :
    semaphore st + length (List.filter is_running (tasks st)) = 10;
  inv_done : forall i outcome,
    tasks st !! i = Some (Done outcome) ->
    exists cfg env now,
      configs !! i = Some cfg /\ outcome = test_one env now cfg
}.

End Arithmetic.

End Validation.


(** The request dictionaries whose values have the types [TestResult]
    declares, a missing key taking the default of [test_one]. *)
Definition well_typed (cfg : config) : bool :=
  is_str (get cfg (lit "id") (VStr []))
  && is_str (get cfg (lit "protocol") (VStr []))
  && is_str (get cfg (lit "server") (VStr []))
  && match get cfg (lit "port") (VInt 443) with VInt _ => true | _ => false end
  && is_str (get cfg (lit "name") (VStr []))
  && is_str (get cfg (lit "country") (VStr []))
  && match get cfg (lit "telegram_channel") VNone with
     | VNone | VStr _ => true
     | _ => false
     end
  && match get cfg (lit "is_telegram") (VBool false) with
     | VBool _ => true
     | _ => false
     end.


(** The number of probes in flight. *)
Definition in_flight (st : state) : nat :=
  length (List.filter is_running (tasks st)).

(** How far a task is: it takes one event to start and one to finish. *)
Definition progress (t : task) : nat :=
  match t with
  | Waiting => 0
  | Running => 1
  | Done _ => 2
  end.

Definition events_done (ts : list task) : nat := sum_list (progress <$> ts).


(** *** Requests and runs to try the batch on *)

(** An environment in which every connection is made at once. *)
Definition idle_env : probe_env :=
  ProbeEnv Nan (fun _ _ _ => None) Nan None.

(** Readings of a clock that stands still. *)
Definition no_time (now start : float) : float := now.
Definition unrounded (x : float) : float := x.

(** A pydantic that converts nothing, as in its strict mode. *)
Definition no_conversion : conversions :=
  Conversions (fun _ => None) (fun _ => None) (fun _ => None).

(** A pydantic whose [int] field takes what [int] reads, and that converts
    nothing else. *)
Definition int_conversion : conversions :=
  Conversions (fun _ => None)
    (fun v => match int v with Ok z => Some z | Raise _ => None end)
    (fun _ => None).

(** A store that takes every document. *)
Definition ready_store : nat -> TestResult -> option exn := fun _ _ => None.

(** A store whose driver refuses a port beyond eight bytes, as the BSON
    encoder does, and that takes every other document. *)
Definition fits_eight_bytes (z : Z) : bool :=
  ((- 2 ^ 63 <=? z) && (z <? 2 ^ 63))%Z.




(** A dictionary whose port is a numeral. *)
Definition numeral_port : config :=
  {[ lit "id" := VStr (lit "a"); lit "port" := VStr (lit "54051") ]}.

Definition two_configs : list config := [∅; {[ lit "id" := VStr (lit "a") ]}].

Definition two_probes : list event :=
  [Acquire 1; Acquire 0; Release 1 idle_env []; Release 0 idle_env []].

Definition eleven_configs : list config := replicate 11 ∅.

Definition ten_acquired : list event := Acquire <$> seq 0 10.

End Batch.

(** ** The words of the specification *)

Module Spec.
Import Py Value.





(** [binascii]'s table from six bits to a character. *)
Definition table_b2a (v : N) : N :=
  (if v <? 26 then v + 65
   else if v <? 52 then v + 71
   else if v <? 62 then v - 4
   else if v =? 62 then 43
   else 47)%N.








(** *** Where a line names its port *)

(** The text before the first [c], all of it when there is none. *)
Definition until (c : N) (s : str) : str :=
  match find [c] s with
  | Some i => take i s
  | None => s
  end.


Definition after_last (c : N) (s : str) : option str :=
  match rfind [c] s with
  | Some i => Some (drop (i + 1) s)
  | None => None
  end.


(** The host part of a plain shadowsocks line: what follows the last [@]
    of the text before the label, without the slashes at its end, up to
    the query. *)
Definition ss_host_part (line : str) : option str :=
  match after_last 64 (until 35 (drop 5 line)) with
  | Some text => Some (until 63 (rstrip_chars (lit "/") text))
  | None => None
  end.



(** The value of a numeral of decimal digits. *)
Definition decimal (digits : str) : Z := Z.of_N (Json.digits_value digits).

(** [txt] is a piece of [s]: some consecutive characters of it. *)
Definition piece_of (txt s : str) : Prop :=
  exists before after, s = before ++ txt ++ after.

End Spec.

(** ** Lines built from known parts *)

Module Lines.
Import Py.

(** A label after [#], or none. *)
Definition with_label (label : option str) : str :=
  match label with
  | Some l => lit "#" ++ l
  | None => []
  end.

(** A query after [?], or none. *)
Definition with_query (query : option str) : str :=
  match query with
  | Some q => lit "?" ++ q
  | None => []
  end.

(** A port after a colon, or none. *)
Definition with_port (port_text : option str) : str :=
  match port_text with
  | Some p => lit ":" ++ p
  | None => []
  end.

(** The port a vless or trojan record has for a port text, 443 standing for
    a missing one. *)
Definition port_or_default (port_text : option str) : Z :=
  match port_text with
  | Some p => Spec.decimal p
  | None => 443
  end.

Definition no_char (c : N) (s : str) : Prop := Forall (fun d => d <> c) s.

(** A port text: decimal digits, at least one. *)
Definition is_port_text (p : str) : Prop :=
  p <> [] /\ forallb is_digit p = true.

(** A port text [int] reads: it has no more digits than [int] takes. *)
Definition readable_port_text (p : str) : Prop :=
  is_port_text p /\ length p <= max_str_digits.

(** A link of the form [scheme://userinfo@host:port/?query#label], the
    port, the slashes after it, the query and the label being optional. *)
Definition uri_line (scheme : string) (userinfo host : str)
    (port_text : option str) (slashes : nat) (query label : option str)
  : str :=
  lit scheme ++ userinfo ++ lit "@" ++ host ++ with_port port_text
  ++ replicate slashes 47%N ++ with_query query ++ with_label label.

End Lines.

(** ** Runs of the batch *)

Module Runs.
Import Batch.

(** The tasks that leave the semaphore during a run, in the order in which
    they leave. *)
Definition released (evs : list event) : list nat :=
  omap (fun ev => match ev with
                  | Release i _ _ => Some i
                  | Acquire _ => None
                  end) evs.

End Runs.

(** ** The subscription endpoint *)

Module Fetch.
Import Py Server.

(** One turn of the loop of [fetch_configs]: the line is trimmed, an empty
    one is passed over, and a line with a record adds a [ConfigInfo], which
    is here the line and the record; the [id] it gets is a fresh UUID.
    The fields of a record have the types [ConfigInfo] declares. *)
Definition fetch_line (line : str) : result (list (str * config)) :=
  let line := strip line in
  match line with
  | [] => Ok []
  | _ :: _ =>
      parsed ← parse_config line;
      match parsed with
      | Some r => Ok [(line, r)]
      | None => Ok []
      end
  end.

(** The loop over the lines. *)
Fixpoint fetch_lines (lines : list str) : result (list (str * config)) :=
  match lines with
  | [] => Ok []
  | line :: lines' =>
      found ← fetch_line line;
      configs ← fetch_lines lines';
      Ok (found ++ configs)
  end.

(** From the text of the response to the list [configs]. *)
Definition fetch_content (content : str) : result (list (str * config)) :=
  fetch_lines (split [10%N] (strip content)).

(** The dictionary [fetch_configs] answers with. *)
Record fetched := Fetched {
  error : option exn;
  total : nat;
  configs : list (str * config)
}.

(** What a call of the store does: nothing, or the exception it raises. *)
Definition thrown (answer : option exn) : result () :=
  match answer with
  | Some e => Raise e
  | None => Ok ()
  end.

(** [fetch_configs(req)]: [response] is what the request for [req.url]
    gives, the text of the body or the exception of a failed request or
    of a status that is an error; [delete_many] and [insert_many] are the
    answers of the store, or of its driver, to the two calls that replace
    the stored configs when the list is not empty.  All of it is inside the
    [try]. *)
Definition fetch_configs (delete_many : option exn)
    (insert_many : list (str * config) -> option exn)
    (response : result str) : result fetched :=
  try_except
    (content ← response;
     configs ← fetch_content content;
     _ ← match configs with
         | [] => Ok ()
         | _ :: _ =>
             _ ← thrown delete_many;
             thrown (insert_many configs)
         end;
     Ok (Fetched None (length configs) configs))
    (fun e => Ok (Fetched (Some e) 0 [])).

(** A store that takes every list, and one whose driver refuses a list
    with a port beyond eight bytes, as the BSON encoder does. *)
Definition ready_insert : list (str * config) -> option exn := fun _ => None.

Definition eight_byte_insert : list (str * config) -> option exn :=
  fun configs =>
    if forallb (fun entry => Batch.fits_eight_bytes (port entry.2)) configs
    then None else Some OverflowError.

(** What holds of an entry of the list: its line is not empty and is
    trimmed, and the record is the one the line decodes to. *)
Definition kept (entry : str * config) : Prop :=
  entry.1 <> [] /\ strip entry.1 = entry.1
  /\ parse_config entry.1 = Ok (Some entry.2).

(** A text with the line ends of Windows: a carriage return before every
    line feed. *)
Definition crlf_char (c : N) : str :=
  if (c =? 10)%N then [13%N; 10%N] else [c].

Definition crlf (s : str) : str := flat_map crlf_char s.

End Fetch.

(** ** The stored results *)

Module Store.
Import Py Value Batch.

(** The collection [test_results]: its documents, in the order in which
    they were inserted.  A document is a result; the [_id] the store adds
    to it plays no part. *)
Definition collection := list TestResult.

(** [update_one({"config_id": r["config_id"]}, {"$set": r}, upsert=True)]:
    the first document with the [config_id] of [r] gets the fields of [r],
    which are all the fields it has; when there is none, [r] is
    inserted. *)
Fixpoint update_one (r : TestResult) (docs : collection) : collection :=
  match docs with
  | [] => [r]
  | d :: docs' =>
      if bool_decide (config_id d = config_id r) then r :: docs'
      else d :: update_one r docs'
  end.

(** The loop of [test_batch] after the join, which saves the results one
    after the other, while the store answers. *)
Definition save_results (results : list TestResult) (docs : collection)
  : collection :=
  foldl (fun docs r => update_one r docs) docs results.

(** The first document with a [config_id]. *)
Definition find_one (id : str) (docs : collection) : option TestResult :=
  List.find (fun d => bool_decide (config_id d = id)) docs.

(** Results to try the store on: a result of a probe of [host] for the
    dictionary [id]. *)
Definition sample_result (id host : string) (ok : bool) : TestResult :=
  {| config_id := lit id; protocol := lit "trojan"; server := lit host;
     port := 443; name := []; country := []; telegram_channel := None;
     is_telegram := false; success := ok;
     latency_ms := if ok then Dec false 12 0 else Dec true 1 0;
     tested_at := [] |}.

End Store.
(** * Properties *)

Import Py Value.

(** ** Strings *)

Section Strings.

Implicit Types (s sep cur : str) (i j k : nat).

Lemma startswith_app sep s : startswith sep (sep ++ s) = true.
Proof.
  induction sep as [|a sep IH]; simpl; [done|].
  by rewrite N.eqb_refl, IH.
Qed.

Lemma startswith_true sep s :
  startswith sep s = true <-> exists t, s = sep ++ t.
Proof.
  split.
  - revert s. induction sep as [|a sep IH]; intros s H; simpl in *.
    + by exists s.
    + destruct s as [|b s]; [done|].
      apply andb_true_iff in H as [Hab H]. apply N.eqb_eq in Hab as ->.
      destruct (IH _ H) as [t ->]. by exists t.
  - intros [t ->]. apply startswith_app.
Qed.

Lemma startswith_nil_r sep : sep <> [] -> startswith sep [] = false.
Proof. by destruct sep. Qed.

(** [find] returns the first position at which [sep] starts. *)
Lemma find_Some sep s i :
  find sep s = Some i ->
  startswith sep (drop i s) = true /\ i <= length s
  /\ forall k, k < i -> startswith sep (drop k s) = false.
Proof.
  revert i. induction s as [|c s IH]; intros i; simpl.
  - destruct (startswith sep []) eqn:E; [|done].
    intros [= <-]. repeat split; [done|lia|lia].
  - destruct (startswith sep (c :: s)) eqn:E.
    + intros [= <-]. repeat split; [done|lia|lia].
    + destruct (find sep s) as [j|] eqn:F; [|done].
      intros [= <-]. destruct (IH j eq_refl) as (H1 & H2 & H3).
      repeat split; [done|simpl; lia|].
      intros [|k] Hk; [done|]. simpl. apply H3. lia.
Qed.

Lemma find_None sep s :
  find sep s = None -> forall k, startswith sep (drop k s) = false.
Proof.
  induction s as [|c s IH]; simpl.
  - destruct (startswith sep []) eqn:E; [done|]. intros _ k. by destruct k.
  - destruct (startswith sep (c :: s)) eqn:E; [done|].
    destruct (find sep s) eqn:F; [done|]. intros _ [|k]; [done|].
    simpl. by apply IH.
Qed.

(** Conversely, the first position at which [sep] starts is what [find]
    returns. *)
Lemma find_first sep s i :
  startswith sep (drop i s) = true ->
  (forall k, k < i -> startswith sep (drop k s) = false) ->
  i <= length s ->
  find sep s = Some i.
Proof.
  intros H1 H2 H3. destruct (find sep s) as [j|] eqn:F.
  - destruct (find_Some _ _ _ F) as (G1 & G2 & G3).
    destruct (lt_eq_lt_dec i j) as [[L| ->]|L]; [|done|].
    + by rewrite (G3 _ L) in H1.
    + by rewrite (H2 _ L) in G1.
  - by rewrite (find_None _ _ F i) in H1.
Qed.

Lemma rfind_Some sep s i :
  sep <> [] ->
  rfind sep s = Some i ->
  startswith sep (drop i s) = true /\ i <= length s
  /\ forall k, i < k -> startswith sep (drop k s) = false.
Proof.
  intros Hsep. revert i. induction s as [|c s IH]; intros i; simpl.
  - by rewrite (startswith_nil_r _ Hsep).
  - destruct (rfind sep s) as [j|] eqn:F.
    + intros [= <-]. destruct (IH j eq_refl) as (H1 & H2 & H3).
      repeat split; [done|simpl; lia|].
      intros [|k] Hk; [lia|]. simpl. apply H3. lia.
    + destruct (startswith sep (c :: s)) eqn:E; [|done].
      intros [= <-]. repeat split; [done|lia|].
      intros [|k] Hk; [lia|]. simpl.
      destruct (startswith sep (drop k s)) eqn:G; [|done].
      exfalso. clear -F G. revert k G.
      induction s as [|c s IH]; intros k G; simpl in *.
      * destruct k; simpl in G; by rewrite G in F.
      * destruct (rfind sep s) eqn:F'; [done|].
        destruct (startswith sep (c :: s)) eqn:E; [done|].
        destruct k; simpl in G; [by rewrite G in E|]. by apply (IH eq_refl k).
Qed.

Lemma rfind_None sep s :
  rfind sep s = None -> forall k, startswith sep (drop k s) = false.
Proof.
  induction s as [|c s IH]; simpl.
  - destruct (startswith sep []) eqn:E; [done|]. intros _ k. by destruct k.
  - destruct (rfind sep s) eqn:F; [done|].
    destruct (startswith sep (c :: s)) eqn:E; [done|].
    intros _ [|k]; [done|]. simpl. by apply IH.
Qed.

Lemma rfind_last sep s i :
  sep <> [] ->
  startswith sep (drop i s) = true ->
  (forall k, i < k -> startswith sep (drop k s) = false) ->
  i <= length s ->
  rfind sep s = Some i.
Proof.
  intros Hsep H1 H2 H3. destruct (rfind sep s) as [j|] eqn:F.
  - destruct (rfind_Some _ _ _ Hsep F) as (G1 & G2 & G3).
    destruct (lt_eq_lt_dec i j) as [[L| ->]|L]; [|done|].
    + by rewrite (H2 _ L) in G1.
    + by rewrite (G3 _ L) in H1.
  - by rewrite (rfind_None _ _ F i) in H1.
Qed.

Lemma contains_find sep s :
  contains sep s = true <-> exists i, find sep s = Some i.
Proof.
  unfold contains. destruct (find sep s); split; eauto; try done.
  by intros [? ?].
Qed.

Lemma find_rfind sep s :
  sep <> [] ->
  (exists i, find sep s = Some i) <-> (exists j, rfind sep s = Some j).
Proof.
  intros Hsep. split.
  - intros [i F]. destruct (rfind sep s) eqn:R; [eauto|].
    destruct (find_Some _ _ _ F) as (H & _). by rewrite (rfind_None _ _ R) in H.
  - intros [j R]. destruct (find sep s) eqn:F; [eauto|].
    destruct (rfind_Some _ _ _ Hsep R) as (H & _). by rewrite (find_None _ _ F) in H.
Qed.

(** The first piece of a split is what comes before the first separator. *)
Lemma split_from_head sep s cur :
  sep <> [] ->
  hd [] (split_from sep s cur 0)
  = cur ++ match find sep s with Some i => take i s | None => s end.
Proof.
  intros Hsep. revert cur. induction s as [|c s IH]; intros cur; simpl.
  - rewrite (startswith_nil_r _ Hsep). simpl. by rewrite app_nil_r.
  - destruct (startswith sep (c :: s)) eqn:E; simpl.
    + by rewrite app_nil_r.
    + rewrite IH, <- app_assoc. simpl. by destruct (find sep s).
Qed.

Lemma first_part_split sep s :
  sep <> [] ->
  Server.first_part (split sep s)
  = match find sep s with Some i => take i s | None => s end.
Proof. intros H. unfold Server.first_part, split. by rewrite split_from_head. Qed.

End Strings.

Section MoreStrings.

Implicit Types (s sep cur : str) (i j k : nat).





Lemma find_not_None sep s :
  (forall k, startswith sep (drop k s) = false) -> find sep s = None.
Proof.
  intros H. destruct (find sep s) as [i|] eqn:F; [|done].
  destruct (find_Some _ _ _ F) as (G & _). by rewrite H in G.
Qed.





End MoreStrings.

(** ** The label *)

Section Label.
Import Server.

Lemma parse_config_name_total label :
  exists n c t b, parse_config_name label = Ok (n, c, t, b).
Proof.
  unfold parse_config_name, mbind, result_bind, bind, index, contains.
  repeat case_match; simplify_eq; eauto 6.
Qed.

End Label.

Section Label2.
Import Server.




End Label2.

(** ** What the decoders can raise *)

Section Raises.

Lemma raises_bind {A B} (r : result A) (k : A -> result B) :
  raises_Exception r -> (forall a, raises_Exception (k a)) ->
  raises_Exception (r ≫= k).
Proof. destruct r; simpl; [intros _ H; apply H|done]. Qed.

Lemma raises_Ok {A} (a : A) : raises_Exception (Ok a).
Proof. done. Qed.

Lemma raises_caught {A} (r : result A) e :
  raises_Exception r -> r = Raise e -> is_Exception e = true.
Proof. by intros H ->. Qed.

(** A [try] whose body raises nothing but [Exception]s returns. *)
Lemma try_except_returns {A} (body : result A) (a : A) :
  raises_Exception body -> exists r, try_except body (fun _ => Ok a) = Ok r.
Proof.
  destruct body as [r|e]; simpl; [by eexists|]. intros ->. by eexists.
Qed.

Lemma try_except_Raise {A} (body : result A) (a : A) e :
  raises_Exception body -> body = Raise e ->
  try_except body (fun _ => Ok a) = Ok a.
Proof. intros H ->. simpl in *. by rewrite H. Qed.

Lemma raises_unpack2 {A} (parts : list A) : raises_Exception (unpack2 parts).
Proof. unfold unpack2. by repeat case_match. Qed.

Lemma raises_index sep s : raises_Exception (index sep s).
Proof. unfold index. by case_match. Qed.

Lemma raises_int_of_str s : raises_Exception (int_of_str s).
Proof. unfold int_of_str. by repeat case_match. Qed.

Lemma raises_cons_ok b r :
  raises_Exception r -> raises_Exception (Base64.cons_ok b r).
Proof. by destruct r. Qed.

Lemma raises_a2b_loop data quad_pos leftchar pads :
  raises_Exception (Base64.a2b_loop data quad_pos leftchar pads).
Proof.
  revert quad_pos leftchar pads.
  induction data as [|c data IH]; intros quad_pos leftchar pads; simpl.
  - by destruct quad_pos.
  - repeat case_match; try done; try apply raises_cons_ok; apply IH.
Qed.

Lemma raises_b64decode s : raises_Exception (Base64.b64decode s).
Proof.
  unfold Base64.b64decode, Base64.a2b_base64.
  case_match; [apply raises_a2b_loop|done].
Qed.

Lemma raises_push c r : raises_Exception r -> raises_Exception (Json.push c r).
Proof. destruct r as [[? ?]|]; done. Qed.

Lemma raises_scanstring s : raises_Exception (Json.scanstring s).
Proof.
  remember (length s) as n eqn:Hn. revert s Hn.
  induction n as [n IH] using lt_wf_ind. intros s ->.
  assert (forall t, length t < length s -> raises_Exception (Json.scanstring t))
    as Hrec by (intros t Ht; by eapply IH).
  clear IH. destruct s as [|c rest]; [done|]. simpl.
  repeat case_match; subst; try done; apply raises_push, Hrec; simpl; lia.
Qed.

Lemma raises_match_number s : raises_Exception (Json.match_number s).
Proof. unfold Json.match_number. by repeat case_match. Qed.

Lemma raises_scan fuel :
  (forall s, raises_Exception (Json.scan_once fuel s))
  /\ (forall s acc, raises_Exception (Json.parse_object fuel s acc))
  /\ (forall s acc, raises_Exception (Json.parse_array fuel s acc)).
Proof.
  induction fuel as [|fuel (IH1 & IH2 & IH3)]; [done|].
  assert (forall s, raises_Exception (Json.scanstring s)) as Hs
    by apply raises_scanstring.
  repeat split; intros s; intros; simpl; unfold mbind, result_bind, bind.
  all: repeat
         first
           [ done | apply IH1 | apply IH2 | apply IH3
           | apply raises_match_number
           | match goal with
             | H : Json.scanstring ?t = Raise ?e
               |- raises_Exception (Raise ?e) =>
                 exact (raises_caught _ _ (Hs t) H)
             | H : Json.scan_once _ ?t = Raise ?e
               |- raises_Exception (Raise ?e) =>
                 exact (raises_caught _ _ (IH1 t) H)
             end
           | case_match; subst ].
Qed.

Lemma raises_loads s : raises_Exception (Json.loads s).
Proof.
  unfold Json.loads. case_match; [done|].
  apply raises_bind; [apply raises_scan|]. intros [v rest]. by case_match.
Qed.

Lemma raises_int v : raises_Exception (int v).
Proof.
  destruct v as [| | |f| | |]; simpl; try done.
  - destruct f; simpl; [done..|]. by case_match.
  - apply raises_int_of_str.
Qed.

Lemma raises_parse_config_name label :
  raises_Exception (Server.parse_config_name label).
Proof.
  destruct (parse_config_name_total label) as (n & c & t & b & ->). done.
Qed.

Lemma raises_parse_config_name_of ps :
  raises_Exception (Server.parse_config_name_of ps).
Proof. destruct ps; simpl; try done. apply raises_parse_config_name. Qed.

Lemma raises_get_of data key default :
  raises_Exception (Server.get_of data key default).
Proof. by destruct data. Qed.

Lemma raises_strip_value v : raises_Exception (strip_value v).
Proof. by destruct v. Qed.

Lemma raises_split_fragment rest :
  raises_Exception (Server.split_fragment rest).
Proof. unfold Server.split_fragment. case_match; [apply raises_unpack2|done]. Qed.

Lemma raises_split_host_port server_part :
  raises_Exception (Server.split_host_port server_part).
Proof.
  unfold Server.split_host_port.
  apply raises_bind; [apply raises_unpack2|]. intros [server port].
  apply raises_bind; [apply raises_int_of_str|]. done.
Qed.

Lemma raises_make_config proto server port fragment :
  raises_Exception (Server.make_config proto server port fragment).
Proof.
  unfold Server.make_config.
  apply raises_bind; [apply raises_parse_config_name|]. by intros [[[? ?] ?] ?].
Qed.

Lemma raises_vmess_payload s : raises_Exception (Server.vmess_payload s).
Proof.
  unfold Server.vmess_payload.
  apply raises_bind; [apply raises_b64decode|]. intros raw. apply raises_loads.
Qed.

Create HintDb raises.
Hint Resolve raises_Ok raises_unpack2 raises_index raises_int_of_str
  raises_b64decode raises_loads raises_int raises_parse_config_name
  raises_parse_config_name_of raises_get_of raises_strip_value
  raises_split_fragment raises_split_host_port raises_make_config
  raises_vmess_payload : raises.

(** Step through a body: a bind splits into its two halves, a branch into
    its cases. *)
Ltac raises_step :=
  first
    [ apply raises_bind; [|intros ?]
    | progress (auto with raises)
    | match goal with
      | |- raises_Exception (let '(_, _) := ?p in _) => destruct p
      | |- raises_Exception (match ?x with _ => _ end) => destruct x
      | |- raises_Exception (if ?x then _ else _) => destruct x
      end ].

Lemma raises_parse_ss_with padded s :
  raises_Exception (Server.parse_ss_with padded s).
Proof. unfold Server.parse_ss_with. repeat raises_step. Qed.

Lemma raises_parse_vless_body s : raises_Exception (Server.parse_vless_body s).
Proof. unfold Server.parse_vless_body. repeat raises_step. Qed.

Lemma raises_parse_vmess_body s : raises_Exception (Server.parse_vmess_body s).
Proof. unfold Server.parse_vmess_body. repeat raises_step. Qed.

Lemma raises_parse_trojan_body s :
  raises_Exception (Server.parse_trojan_body s).
Proof. unfold Server.parse_trojan_body. repeat raises_step. Qed.

End Raises.

(** ** No decoder raises *)

Section Decoders.
Import Server.

Lemma unpack2_split1 sep s i :
  find sep s = Some i ->
  unpack2 (split1 sep s) = Ok (take i s, drop (i + length sep) s).
Proof. unfold split1. by intros ->. Qed.

Lemma unpack2_rsplit1 sep s i :
  rfind sep s = Some i ->
  unpack2 (rsplit1 sep s) = Ok (take i s, drop (i + length sep) s).
Proof. unfold rsplit1. by intros ->. Qed.




End Decoders.

(** ** The bracketed host of a trojan line *)

Section Defaults.
Import Server.

(** C5.  The vless decoder has a branch for a host that starts with a
    bracket; the trojan decoder has none and cuts the host at its last
    colon.  A bracketed host without a port therefore has no record in a
    trojan line, where the same host in a vless line gives the server with
    its brackets and the port 443; with a port after the bracket the two
    decoders agree. *)
Theorem trojan_bracket_host_without_port :
  parse_trojan (lit "trojan://pw@[::1]") = Ok None
  /\ parse_vless (lit "vless://pw@[::1]")
     = Ok (Some (Config (lit "vless") (lit "[::1]") 443 [] [] None false))
  /\ parse_trojan (lit "trojan://pw@[::1]:8443")
     = Ok (Some (Config (lit "trojan") (lit "[::1]") 8443 [] [] None false))
  /\ parse_vless (lit "vless://pw@[::1]:8443")
     = Ok (Some (Config (lit "vless") (lit "[::1]") 8443 [] [] None false)).
Proof. by vm_compute. Qed.

(** ** The defaults of a vmess payload *)

Lemma parse_config_name_of_str s :
  exists n c t b, parse_config_name_of (VStr s) = Ok (n, c, t, b).
Proof. apply parse_config_name_total. Qed.

Lemma get_absent (d : gmap str value) key default :
  d !! key = None -> get d key default = default.
Proof. unfold get. by intros ->. Qed.

Lemma is_str_inv v : is_str v = true -> exists s, v = VStr s.
Proof. destruct v; try done. eauto. Qed.

(** The payload [{"ps":5}] is a JSON object without [port] and without
    [add], and the line has no record: the label is not a string. *)
Lemma vmess_label_not_string_counterexample :
  exists d,
    vmess_payload (lit "vmess://eyJwcyI6NX0") = Ok (VDict d)
    /\ d !! lit "port" = None /\ d !! lit "add" = None
    /\ d !! lit "ps" = Some (VInt 5)
    /\ parse_vmess (lit "vmess://eyJwcyI6NX0") = Ok None.
Proof. eexists. by vm_compute. Qed.

(** C7, amended.  When the payload of a vmess line is a JSON object whose
    [add] and [ps], where present, are strings: without [port] the line has
    a record with port 443, and without [add] (the port, where present,
    being a value [int] accepts) it has a record with the empty server. *)
Theorem vmess_defaults (line : str) (d : gmap str value) :
  vmess_payload line = Ok (VDict d) ->
  is_str (get d (lit "ps") (VStr [])) = true ->
  (d !! lit "port" = None ->
   is_str (get d (lit "add") (VStr [])) = true ->
   exists r, parse_vmess line = Ok (Some r) /\ port r = 443%Z)
  /\ (d !! lit "add" = None ->
      forall p, int (get d (lit "port") (VInt 443)) = Ok p ->
      exists r, parse_vmess line = Ok (Some r) /\ server r = [] /\ port r = p).
Proof.
  intros Hpayload Hps.
  apply is_str_inv in Hps as [ps Hps].
  destruct (parse_config_name_of_str ps) as (n & c & t & b & Hname).
  split.
  - intros Hport Hadd. apply is_str_inv in Hadd as [add Hadd].
    eexists. unfold parse_vmess, parse_vmess_body, get_of.
    rewrite Hpayload. cbn [mbind result_bind bind].
    rewrite Hadd, Hps, (get_absent _ _ _ Hport), Hname. by simpl.
  - intros Hadd p Hp.
    eexists. unfold parse_vmess, parse_vmess_body, get_of.
    rewrite Hpayload. cbn [mbind result_bind bind].
    rewrite (get_absent _ _ _ Hadd), Hp, Hps, Hname. by simpl.
Qed.

Lemma vmess_defaults_witness :
  (exists r, parse_vmess (lit "vmess://e30") = Ok (Some r) /\ port r = 443%Z)
  /\ (exists r, parse_vmess (lit "vmess://e30") = Ok (Some r)
                /\ server r = [] /\ port r = 443%Z).
Proof.
  destruct (vmess_defaults (lit "vmess://e30") ∅) as [H1 H2];
    [by vm_compute..|].
  split; [apply H1; by vm_compute|apply H2; by vm_compute].
Defined.

End Defaults.

(** ** Where a port comes from *)

Section Ports.
Import Server Spec.


Lemma piece_of_trans a b c : piece_of a b -> piece_of b c -> piece_of a c.
Proof.
  intros (p1 & q1 & ->) (p2 & q2 & ->).
  exists (p2 ++ p1), (q1 ++ q2). by rewrite <- !app_assoc.
Qed.

Lemma piece_of_take n s : piece_of (take n s) s.
Proof. exists [], (drop n s). simpl. by rewrite take_drop. Qed.

Lemma piece_of_drop n s : piece_of (drop n s) s.
Proof. exists (take n s), []. by rewrite app_nil_r, take_drop. Qed.

Lemma lstrip_by_suffix p s : exists t, s = t ++ lstrip_by p s.
Proof.
  induction s as [|c s [t IH]]; [by exists []|]. simpl.
  destruct (p c); [|by exists []]. exists (c :: t). simpl. by f_equal.
Qed.

Lemma piece_of_rstrip_by p s : piece_of (rstrip_by p s) s.
Proof.
  unfold rstrip_by. destruct (lstrip_by_suffix p (rev s)) as [t H].
  exists [], (rev t). simpl.
  rewrite <- rev_app_distr, <- H. by rewrite rev_involutive.
Qed.



Lemma piece_of_unpack2_rsplit1 sep s a b :
  unpack2 (rsplit1 sep s) = Ok (a, b) -> piece_of a s /\ piece_of b s.
Proof.
  unfold rsplit1. destruct (rfind sep s); [|done].
  intros [= <- <-]. split; [apply piece_of_take|apply piece_of_drop].
Qed.


(** The port [split_host_port] returns is what [int] reads from a piece of
    the host part. *)
Lemma split_host_port_piece server_part host p :
  split_host_port server_part = Ok (host, p) ->
  exists txt, piece_of txt server_part /\ int_of_str txt = Ok p.
Proof.
  unfold split_host_port, mbind, result_bind, bind.
  destruct (unpack2 _) as [[h txt]|] eqn:E; [|done].
  destruct (int_of_str txt) as [q|] eqn:I; [|done]. intros [= <- <-].
  exists txt. split; [|done]. by apply piece_of_unpack2_rsplit1 in E as [_ ?].
Qed.


Lemma try_except_Some {A} (body : result (option A)) r :
  try_except body (fun _ => Ok None) = Ok (Some r) -> body = Ok (Some r).
Proof. destruct body as [|e]; simpl; [done|]. by destruct (is_Exception e). Qed.

(** *** The host part and the port it names *)














End Ports.

(** ** Base64 *)

Section Base64Facts.
Import Base64 Spec.



Lemma table_b2a_not_pad v : (table_b2a v =? 61)%N = false.
Proof.
  unfold table_b2a.
  destruct (N.ltb_spec v 26), (N.ltb_spec v 52), (N.ltb_spec v 62),
    (N.eqb_spec v 62); apply N.eqb_neq; lia.
Qed.









End Base64Facts.

Section Padding.
Import Base64 Spec.





End Padding.

(** ** The fully-encoded shadowsocks line *)

Section Shadowsocks.
Import Server Spec.


Lemma startswith_single c s :
  startswith [c] s = true <-> exists t, s = c :: t.
Proof. rewrite startswith_true. done. Qed.

Lemma startswith_single_absent c s k :
  Forall (fun d => d <> c) s -> k < length s ->
  forall t, startswith [c] (drop k s ++ t) = false.
Proof.
  intros Hs Hk t. destruct (drop k s) as [|d u] eqn:E.
  - apply (f_equal length) in E. rewrite length_drop in E. simpl in E. lia.
  - simpl. assert (d <> c) as Hd.
    { rewrite <- (take_drop k s), E in Hs.
      apply Forall_app in Hs as [_ Hs]. by apply Forall_cons in Hs as [? _]. }
    apply N.eqb_neq in Hd. rewrite N.eqb_sym in Hd. by rewrite Hd.
Qed.

Lemma find_single_app c x y :
  Forall (fun d => d <> c) x -> find [c] (x ++ c :: y) = Some (length x).
Proof.
  intros Hx. apply find_first.
  - rewrite drop_app_length. simpl. by rewrite N.eqb_refl.
  - intros k Hk. rewrite drop_app_le by lia.
    by apply startswith_single_absent.
  - rewrite length_app. lia.
Qed.

Lemma rfind_single_app c x y :
  Forall (fun d => d <> c) y -> rfind [c] (x ++ c :: y) = Some (length x).
Proof.
  intros Hy. apply rfind_last; [done|..].
  - rewrite drop_app_length. simpl. by rewrite N.eqb_refl.
  - intros k Hk. rewrite drop_app_ge by lia.
    destruct (k - length x) as [|j] eqn:E; [lia|]. simpl.
    destruct (le_lt_dec (length y) j) as [L|L].
    + by rewrite drop_ge.
    + rewrite <- (app_nil_r (drop j y)). by apply startswith_single_absent.
  - rewrite length_app. lia.
Qed.

Lemma contains_single_absent c s :
  Forall (fun d => d <> c) s -> contains [c] s = false.
Proof.
  intros Hs. unfold contains. rewrite find_not_None; [done|].
  intros k. destruct (le_lt_dec (length s) k) as [L|L].
  - by rewrite drop_ge.
  - rewrite <- (app_nil_r (drop k s)). by apply startswith_single_absent.
Qed.

Lemma contains_single_app c x y : contains [c] (x ++ c :: y) = true.
Proof.
  destruct (contains [c] (x ++ c :: y)) eqn:E; [done|].
  unfold contains in E. destruct (find _ _) eqn:F; [done|].
  pose proof (find_None _ _ F (length x)) as H.
  by rewrite drop_app_length in H; simpl in H; rewrite N.eqb_refl in H.
Qed.



Lemma is_digit_cases c :
  is_digit c = true ->
  In c [48; 49; 50; 51; 52; 53; 54; 55; 56; 57]%N.
Proof.
  unfold is_digit. intros H. apply andb_true_iff in H as [H1 H2].
  apply N.leb_le in H1, H2. simpl.
  assert (c = 48 \/ c = 49 \/ c = 50 \/ c = 51 \/ c = 52 \/ c = 53
          \/ c = 54 \/ c = 55 \/ c = 56 \/ c = 57)%N by lia.
  intuition.
Qed.

(** The digits of ASCII are the first of the decimal digits. *)
Lemma digit_value_ascii c :
  is_digit c = true -> digit_value c = Some (c - 48)%N.
Proof.
  intros H. apply is_digit_cases in H. simpl in H.
  repeat (destruct H as [<-|H]; [done|]). done.
Qed.

(** [int] of a numeral of decimal digits. *)
Lemma int_digits_decimal ds n after_digit :
  forallb is_digit ds = true -> ds <> [] \/ after_digit = true ->
  int_digits ds (Z.of_N n) after_digit
  = Some (Z.of_N (fold_left (fun a c => 10 * a + (c - 48))%N ds n)).
Proof.
  revert n after_digit.
  induction ds as [|c ds IH]; intros n after_digit Hds Hne.
  - destruct Hne as [?| ->]; done.
  - simpl in Hds. apply andb_true_iff in Hds as [Hc Hds].
    cbn [int_digits fold_left]. rewrite (digit_value_ascii c Hc).
    replace (10 * Z.of_N n + Z.of_N (c - 48))%Z with (Z.of_N (10 * n + (c - 48)))
      by lia.
    apply IH; [done|by right].
Qed.

Lemma count_digits_le s : count_digits s <= length s.
Proof. apply List.filter_length_le. Qed.

Lemma lstrip_by_id p s :
  (forall c, In c s -> p c = false) -> lstrip_by p s = s.
Proof.
  destruct s as [|c s]; [done|]. intros H. simpl.
  by rewrite (H c) by by left.
Qed.

Lemma strip_by_id p s :
  (forall c, In c s -> p c = false) -> strip_by p s = s.
Proof.
  intros H. unfold strip_by, rstrip_by. rewrite (lstrip_by_id p s H).
  rewrite lstrip_by_id; [apply rev_involutive|].
  intros c Hc. apply H. by apply in_rev.
Qed.

Lemma int_of_str_decimal ds :
  ds <> [] -> forallb is_digit ds = true -> length ds <= max_str_digits ->
  int_of_str ds = Ok (decimal ds).
Proof.
  intros Hne Hds Hlen. unfold int_of_str.
  rewrite strip_by_id.
  - destruct ds as [|c ds]; [done|].
    assert (is_digit c = true) as Hc
      by (simpl in Hds; by apply andb_true_iff in Hds as [? _]).
    assert (split_sign (c :: ds) = (false, c :: ds)) as ->.
    { apply is_digit_cases in Hc. simpl in Hc.
      repeat (destruct Hc as [<-|Hc]; [done|]). done. }
    cbn [fst snd]. change 0%Z with (Z.of_N 0).
    rewrite int_digits_decimal by (done || by left).
    pose proof (count_digits_le (c :: ds)) as Hcount.
    by replace (max_str_digits <? count_digits (c :: ds))%nat with false
      by (symmetry; apply Nat.ltb_ge; lia).
  - intros c Hc. rewrite forallb_forall in Hds. specialize (Hds c Hc).
    apply is_digit_cases in Hds. simpl in Hds.
    repeat (destruct Hds as [<-|Hds]; [done|]). done.
Qed.


End Shadowsocks.

Section Roundtrip.
Import Server Spec.





Lemma drop_past (x : str) c y : drop (length x + length [c]) (x ++ c :: y) = y.
Proof.
  rewrite drop_app_ge by lia.
  by replace (length x + length [c] - length x) with 1 by (simpl; lia).
Qed.






End Roundtrip.

(** ** The prober *)

Section ProberFacts.
Import Prober.

Variable elapsed_ms : float -> float -> float.
Variable round1 : float -> float.

Lemma fault_is_Exception f : is_Exception (exn_of_fault f) = true.
Proof.
  destruct f as [| | |e]; try done. simpl. by destruct (is_Exception e) eqn:E.
Qed.

Lemma await_caught outcome : try_except (await outcome) (fun _ => Ok ()) = Ok ().
Proof.
  destruct outcome as [f|]; [|done]. simpl. by rewrite fault_is_Exception.
Qed.



End ProberFacts.

(** ** The batch *)

Section BatchFacts.
Import Prober Batch.

Variable pydantic : conversions.
Variable elapsed_ms : float -> float -> float.
Variable round1 : float -> float.
Variable store : nat -> TestResult -> option exn.

Local Abbreviation validate_str := (validate_str pydantic).
Local Abbreviation validate_int := (validate_int pydantic).
Local Abbreviation validate_bool := (validate_bool pydantic).
Local Abbreviation validate_optional_str := (validate_optional_str pydantic).
Local Abbreviation accepted := (accepted pydantic).
Local Abbreviation test_one := (test_one pydantic elapsed_ms round1).
Local Abbreviation step := (step pydantic elapsed_ms round1).
Local Abbreviation run := (run pydantic elapsed_ms round1).
Local Abbreviation save_from := (save_from store).
Local Abbreviation test_batch := (test_batch pydantic elapsed_ms round1 store).
Local Abbreviation invariant := (invariant pydantic elapsed_ms round1).

Implicit Types (ts : list task) (st : state) (configs : list config).

(** *** One task *)

(** What a result is made of: the values the fields make of the values of
    the dictionary, and the outcome of the probe. *)
Lemma test_one_Ok env now cfg r :
  test_one env now cfg = Ok r ->
  validate_str (get cfg (lit "id") (VStr [])) = Ok (config_id r)
  /\ validate_str (get cfg (lit "protocol") (VStr [])) = Ok (protocol r)
  /\ validate_str (get cfg (lit "server") (VStr [])) = Ok (server r)
  /\ validate_int (get cfg (lit "port") (VInt 443)) = Ok (port r)
  /\ validate_str (get cfg (lit "name") (VStr [])) = Ok (name r)
  /\ validate_str (get cfg (lit "country") (VStr [])) = Ok (country r)
  /\ validate_optional_str (get cfg (lit "telegram_channel") VNone)
     = Ok (telegram_channel r)
  /\ validate_bool (get cfg (lit "is_telegram") (VBool false))
     = Ok (is_telegram r)
  /\ exists latency,
       test_tcp_connection elapsed_ms round1 env
         (get cfg (lit "server") (VStr [])) (get cfg (lit "port") (VInt 443))
         (Dec false 3 0)
       = Ok (success r, latency)
       /\ latency_ms r = validate_float latency /\ tested_at r = now.
Proof.
  unfold Batch.test_one, mbind, result_bind, bind.
  destruct (test_tcp_connection _ _ _ _ _ _) as [[ok latency]|]; [|done].
  destruct (Batch.validate_str _ (get cfg (lit "id") _)); [|done].
  destruct (Batch.validate_str _ (get cfg (lit "protocol") _)); [|done].
  destruct (Batch.validate_str _ (get cfg (lit "server") _)); [|done].
  destruct (Batch.validate_int _ _); [|done].
  destruct (Batch.validate_str _ (get cfg (lit "name") _)); [|done].
  destruct (Batch.validate_str _ (get cfg (lit "country") _)); [|done].
  destruct (Batch.validate_optional_str _ _); [|done].
  destruct (Batch.validate_bool _ _); [|done].
  intros [= <-]. simpl. repeat split; try done. by exists latency.
Qed.





(** A value of the declared type passes. *)
Lemma well_typed_accepted cfg : well_typed cfg = true -> accepted cfg = true.
Proof.
  unfold well_typed, Batch.accepted. intros H.
  repeat (apply andb_true_iff in H as [H ?]).
  repeat (match goal with
          | G : is_str ?v = true |- _ =>
              apply is_str_inv in G as [? G]; rewrite G
          | G : match ?v with _ => _ end = true |- _ =>
              destruct v; try done; clear G
          end).
  all: done.
Qed.

(** *** Counting *)

Lemma running_count ts :
  length (List.filter is_running ts) = sum_list (running <$> ts).
Proof.
  induction ts as [|t ts IH]; [done|]. simpl.
  unfold running at 1. destruct (is_running t); simpl; by rewrite IH.
Qed.

(** Replacing one element of a list changes a sum over it by the
    difference of the two. *)
Lemma sum_list_insert {A} (f : A -> nat) (l : list A) i old new :
  l !! i = Some old ->
  sum_list (f <$> <[i := new]> l) + f old = sum_list (f <$> l) + f new.
Proof.
  revert i. induction l as [|a l IH]; intros i H; [done|].
  destruct i as [|i].
  - injection H as ->. simpl. unfold id. lia.
  - specialize (IH i H).
    change (f a + sum_list (f <$> <[i:=new]> l) + f old
            = f a + sum_list (f <$> l) + f new).
    lia.
Qed.

(** *** What every run keeps *)

Lemma invariant_init configs : invariant configs (init configs).
Proof.
  split; simpl.
  - by rewrite length_replicate.
  - rewrite running_count, fmap_replicate, sum_list_replicate.
    unfold running. simpl. lia.
  - intros i outcome H. by apply lookup_replicate in H as [? _].
Qed.

Lemma invariant_step configs st ev st' :
  invariant configs st -> step configs st ev = Some st' ->
  invariant configs st'
  /\ events_done (tasks st') = S (events_done (tasks st)).
Proof.
  intros [Hlen Hslots Hdone]. rewrite running_count in Hslots.
  destruct ev as [i|i env now]; simpl.
  - destruct (tasks st !! i) as [[| |]|] eqn:T; try done.
    destruct (semaphore st) as [|v] eqn:V; [done|]. intros [= <-].
    pose proof (sum_list_insert running _ i _ Running T) as Hr.
    pose proof (sum_list_insert progress _ i _ Running T) as Hp.
    unfold running in Hr at 2 4. cbn [is_running progress] in Hr, Hp.
    split; [split|]; simpl.
    + by rewrite length_insert.
    + rewrite running_count. lia.
    + intros j outcome H. destruct (decide (i = j)) as [->|Hne].
      * rewrite list_lookup_insert_eq in H; [done|]. by eapply lookup_lt_Some.
      * rewrite list_lookup_insert_ne in H by done. by apply Hdone.
    + unfold events_done. lia.
  - destruct (tasks st !! i) as [[| |]|] eqn:T; try done.
    destruct (configs !! i) as [cfg|] eqn:C; [|done]. intros [= <-].
    pose proof (sum_list_insert running _ i _ (Done (test_one env now cfg)) T)
      as Hr.
    pose proof (sum_list_insert progress _ i _ (Done (test_one env now cfg)) T)
      as Hp.
    unfold running in Hr at 2 4. cbn [is_running progress] in Hr, Hp.
    split; [split|]; simpl.
    + by rewrite length_insert.
    + rewrite running_count. lia.
    + intros j outcome H. destruct (decide (i = j)) as [->|Hne].
      * rewrite list_lookup_insert_eq in H by by eapply lookup_lt_Some.
        injection H as <-. eauto.
      * rewrite list_lookup_insert_ne in H by done. by apply Hdone.
    + unfold events_done. lia.
Qed.

Lemma invariant_run configs evs st st' :
  invariant configs st -> run configs st evs = Some st' ->
  invariant configs st'
  /\ events_done (tasks st') = events_done (tasks st) + length evs.
Proof.
  revert st. induction evs as [|ev evs IH]; intros st Hinv; simpl.
  - intros [= <-]. split; [done|lia].
  - destruct (step configs st ev) as [st1|] eqn:S; [|done]. intros R.
    destruct (invariant_step _ _ _ _ Hinv S) as [Hinv1 E1].
    destruct (IH _ Hinv1 R) as [Hinv' E']. split; [done|lia].
Qed.

Lemma events_done_init configs : events_done (tasks (init configs)) = 0.
Proof.
  unfold events_done. simpl.
  rewrite fmap_replicate, sum_list_replicate. simpl. lia.
Qed.

Lemma reachable configs evs st :
  run configs (init configs) evs = Some st ->
  invariant configs st /\ events_done (tasks st) = length evs.
Proof.
  intros R. destruct (invariant_run _ _ _ _ (invariant_init configs) R) as [? E].
  split; [done|]. by rewrite E, events_done_init.
Qed.


(** *** The join *)

Lemma gather_Ok ts rs :
  gather ts = Some (Ok rs) -> ts = (fun r => Done (Ok r)) <$> rs.
Proof.
  revert rs. induction ts as [|t ts IH]; intros rs; simpl.
  - by intros [= <-].
  - destruct t as [| |[r|e]]; destruct (gather ts) as [[rs'|e']|]; try done.
    intros [= <-]. simpl. by rewrite (IH rs').
Qed.




(** *** The ten slots *)

(** C9.  In every state of a run of the batch the probes in flight and the
    free slots of the semaphore add up to ten, so at most ten probes are in
    flight.  With ten in flight no waiting task can enter: it can after a
    probe has left, which frees a slot.  With fewer than ten in flight any
    waiting task can enter. *)
Theorem at_most_ten_in_flight configs evs st :
  run configs (init configs) evs = Some st ->
  semaphore st + in_flight st = 10
  /\ in_flight st <= 10
  /\ (in_flight st = 10 -> forall i, step configs st (Acquire i) = None)
  /\ (in_flight st < 10 ->
      forall i, tasks st !! i = Some Waiting ->
      exists st', step configs st (Acquire i) = Some st'
                  /\ in_flight st' = S (in_flight st))
  /\ (forall i env now st',
        step configs st (Release i env now) = Some st' ->
        S (in_flight st') = in_flight st
        /\ semaphore st' = S (semaphore st)).
Proof.
  intros R. destruct (reachable _ _ _ R) as [Hinv _].
  pose proof (inv_slots _ _ _ _ _ Hinv) as Hslots. fold (in_flight st) in Hslots.
  split; [done|]. split; [lia|]. split; [|split].
  - intros Hfull i. simpl.
    destruct (tasks st !! i) as [[| |]|]; try done.
    destruct (semaphore st); [done|lia].
  - intros Hfree i Hi. simpl. rewrite Hi.
    destruct (semaphore st) as [|v] eqn:V; [lia|].
    eexists. split; [done|].
    destruct (invariant_step configs st (Acquire i)
                (State v (<[i:=Running]> (tasks st))) Hinv) as [Hinv' _].
    { simpl. by rewrite Hi, V. }
    pose proof (inv_slots _ _ _ _ _ Hinv') as Hslots'. simpl in Hslots'.
    unfold in_flight in *. simpl. lia.
  - intros i env now st' S.
    destruct (invariant_step configs st _ st' Hinv S) as [Hinv' _].
    pose proof (inv_slots _ _ _ _ _ Hinv') as Hslots'.
    fold (in_flight st') in Hslots'.
    simpl in S. destruct (tasks st !! i) as [[| |]|]; try done.
    destruct (configs !! i); [|done]. injection S as <-.
    unfold in_flight in *. simpl in *. lia.
Qed.

(** *** One result for each dictionary, in their order *)

(** *** The saving loop *)



(** [test_batch] returns a list when the join has it and the store has
    taken all of it. *)
Lemma test_batch_Ok configs evs rs :
  test_batch configs evs = Some (Ok rs) ->
  exists st,
    run configs (init configs) evs = Some st
    /\ gather (tasks st) = Some (Ok rs)
    /\ save_from 0 rs = Ok ().
Proof.
  unfold Batch.test_batch.
  destruct (run configs (init configs) evs) as [st|] eqn:R; [|done].
  destruct (gather (tasks st)) as [[rs'|e]|] eqn:G; [|done..].
  cbn [mbind result_bind bind].
  destruct (Batch.save_from store 0 rs') as [[]|e] eqn:S; [|done].
  intros [= <-]. by exists st.
Qed.

Lemma gathered_in_order configs evs rs :
  test_batch configs evs = Some (Ok rs) ->
  length rs = length configs
  /\ forall i r,
       rs !! i = Some r ->
       exists cfg env now,
         configs !! i = Some cfg /\ test_one env now cfg = Ok r.
Proof.
  intros T. apply test_batch_Ok in T as (st & R & G & _).
  apply gather_Ok in G.
  destruct (reachable _ _ _ R) as [[Hlen _ Hdone] _].
  split.
  - by rewrite <- Hlen, G, length_fmap.
  - intros i r Hr.
    destruct (Hdone i (Ok r)) as (cfg & env & now & Hc & Ho).
    { by rewrite G, list_lookup_fmap, Hr. }
    by exists cfg, env, now.
Qed.

(** C10.  The list [test_batch] returns has the order of the request: it
    is as long as the list of dictionaries, and its i-th result is what
    [test_one] returned for the i-th dictionary. *)
Theorem results_keep_input_order configs evs rs :
  test_batch configs evs = Some (Ok rs) ->
  length rs = length configs
  /\ forall i r,
       rs !! i = Some r ->
       exists cfg env now,
         configs !! i = Some cfg /\ test_one env now cfg = Ok r.
Proof. apply gathered_in_order. Qed.

(** *** One result for each dictionary *)




End BatchFacts.

(** *** Runs of the batch on given requests *)

Section BatchRuns.
Import Prober Batch.




Lemma results_keep_input_order_witness :
  exists rs,
    test_batch no_conversion no_time unrounded ready_store two_configs
      two_probes
    = Some (Ok rs)
    /\ length rs = 2
    /\ forall i r,
         rs !! i = Some r ->
         exists cfg env now,
           two_configs !! i = Some cfg
           /\ test_one no_conversion no_time unrounded env now cfg = Ok r.
Proof.
  destruct (test_batch no_conversion no_time unrounded ready_store
              two_configs two_probes)
    as [[rs|e]|] eqn:T; [|by vm_compute in T..].
  exists rs. split; [done|].
  exact (results_keep_input_order no_conversion no_time unrounded ready_store
           two_configs two_probes rs T).
Defined.

Lemma at_most_ten_in_flight_witness :
  exists st,
    run no_conversion no_time unrounded eleven_configs (init eleven_configs)
      ten_acquired
    = Some st
    /\ in_flight st = 10
    /\ tasks st !! 10 = Some Waiting
    /\ step no_conversion no_time unrounded eleven_configs st (Acquire 10)
       = None.
Proof.
  destruct (run no_conversion no_time unrounded eleven_configs
              (init eleven_configs) ten_acquired)
    as [st|] eqn:R; [|by vm_compute in R].
  destruct (at_most_ten_in_flight no_conversion no_time unrounded
              eleven_configs ten_acquired st R) as (_ & _ & Hfull & _).
  assert (in_flight st = 10 /\ tasks st !! 10 = Some Waiting) as [F W].
  { vm_compute in R. injection R as <-. by vm_compute. }
  exists st. split; [done|]. split; [done|]. split; [done|]. by apply Hfull.
Defined.

End BatchRuns.

(** * Further properties *)

(** ** More on strings *)

Section Trimming.

Implicit Types (s x y : str) (p : N -> bool).

Lemma lstrip_by_app_keep p x c y :
  p c = false -> lstrip_by p (x ++ c :: y) = lstrip_by p x ++ c :: y.
Proof.
  intros Hc. induction x as [|a x IH]; simpl; [by rewrite Hc|].
  by destruct (p a).
Qed.

Lemma rstrip_by_app_keep p x c y :
  p c = false -> rstrip_by p (x ++ c :: y) = x ++ c :: rstrip_by p y.
Proof.
  intros Hc. unfold rstrip_by.
  rewrite rev_app_distr. simpl. rewrite <- app_assoc. simpl.
  rewrite lstrip_by_app_keep by done.
  rewrite rev_app_distr. simpl. by rewrite rev_involutive, <- app_assoc.
Qed.

Lemma rstrip_by_snoc p x c : p c = false -> rstrip_by p (x ++ [c]) = x ++ [c].
Proof. intros Hc. by rewrite rstrip_by_app_keep. Qed.

Lemma rstrip_by_drop p x n c :
  p c = true -> rstrip_by p (x ++ replicate n c) = rstrip_by p x.
Proof.
  intros Hc. unfold rstrip_by. f_equal. rewrite rev_app_distr.
  induction n as [|n IH]; [done|].
  replace (replicate (S n) c) with (replicate n c ++ [c])
    by (symmetry; apply replicate_cons_app).
  rewrite rev_app_distr. simpl. by rewrite Hc.
Qed.

(** What is left of a string after [lstrip_by] is empty or starts with a
    character that stays. *)
Lemma lstrip_by_head p s :
  lstrip_by p s = [] \/ exists c t, lstrip_by p s = c :: t /\ p c = false.
Proof.
  induction s as [|a s IH]; simpl; [by left|].
  destruct (p a) eqn:E; [done|]. right. by exists a, s.
Qed.

Lemma lstrip_by_idem p s : lstrip_by p (lstrip_by p s) = lstrip_by p s.
Proof.
  destruct (lstrip_by_head p s) as [->|(c & t & -> & Hc)]; [done|].
  simpl. by rewrite Hc.
Qed.

Lemma rstrip_by_idem p s : rstrip_by p (rstrip_by p s) = rstrip_by p s.
Proof. unfold rstrip_by. by rewrite rev_involutive, lstrip_by_idem. Qed.

Lemma rstrip_by_cons_keep p c t :
  p c = false -> rstrip_by p (c :: t) = c :: rstrip_by p t.
Proof. intros Hc. exact (rstrip_by_app_keep p [] c t Hc). Qed.

(** Trimming twice is trimming once. *)
Lemma strip_by_idem p s : strip_by p (strip_by p s) = strip_by p s.
Proof.
  unfold strip_by.
  destruct (lstrip_by_head p s) as [->|(c & t & -> & Hc)]; [done|].
  rewrite rstrip_by_cons_keep by done. simpl. rewrite Hc.
  by rewrite <- rstrip_by_cons_keep, rstrip_by_idem by done.
Qed.

Lemma strip_idem s : strip (strip s) = strip s.
Proof. apply strip_by_idem. Qed.

(** A string between two characters that stay is trimmed already. *)
Lemma strip_by_between p a x b :
  p a = false -> p b = false -> strip_by p (a :: x ++ [b]) = a :: x ++ [b].
Proof.
  intros Ha Hb. unfold strip_by. simpl. rewrite Ha.
  exact (rstrip_by_snoc p (a :: x) b Hb).
Qed.

(** An outer pair of characters that go leaves what the inside leaves. *)
Lemma lstrip_by_all p s : forallb p s = true -> lstrip_by p s = [].
Proof.
  induction s as [|a s IH]; [done|]. simpl. intros H.
  apply andb_true_iff in H as [-> H]. by apply IH.
Qed.

Lemma lstrip_by_snoc_gone p s b :
  p b = true ->
  lstrip_by p (s ++ [b])
  = if forallb p s then [] else lstrip_by p s ++ [b].
Proof.
  intros Hb. induction s as [|a s IH]; simpl; [by rewrite Hb|].
  destruct (p a); [done|]. done.
Qed.

Lemma rstrip_by_snoc_gone p s b :
  p b = true -> rstrip_by p (s ++ [b]) = rstrip_by p s.
Proof. intros Hb. by apply (rstrip_by_drop p s 1 b). Qed.

Lemma strip_by_wrapped p a s b :
  p a = true -> p b = true -> strip_by p (a :: s ++ [b]) = strip_by p s.
Proof.
  intros Ha Hb. unfold strip_by. simpl. rewrite Ha.
  rewrite lstrip_by_snoc_gone by done.
  destruct (forallb p s) eqn:E.
  - by rewrite lstrip_by_all.
  - by rewrite rstrip_by_snoc_gone.
Qed.

End Trimming.

(** ** Numerals that [int] refuses *)

Section BadNumerals.

Lemma int_digits_bad_last w c acc after_digit :
  digit_value c = None -> int_digits (w ++ [c]) acc after_digit = None.
Proof.
  intros Hc. revert acc after_digit.
  induction w as [|d w IH]; intros acc after_digit; cbn [app int_digits].
  - rewrite Hc. by destruct ((c =? 95)%N && after_digit).
  - destruct (digit_value d); [apply IH|].
    destruct ((d =? 95)%N && after_digit); [apply IH|done].
Qed.

Lemma split_sign_snoc t c :
  exists negative w,
    split_sign (t ++ [c]) = (negative, w) /\ (w = [] \/ exists w', w = w' ++ [c]).
Proof.
  destruct t as [|a t]; simpl.
  - destruct (decide (c = 45%N)) as [->|H1]; [exists true, []; by split; [|left]|].
    destruct (decide (c = 43%N)) as [->|H2]; [exists false, []; by split; [|left]|].
    exists false, [c]. split; [|right; by exists []].
    unfold split_sign. destruct c as [|q]; [done|].
    repeat (destruct q as [q|q|]; try done).
  - destruct (decide (a = 45%N)) as [->|H1].
    { exists true, (t ++ [c]). split; [done|]. right. by exists t. }
    destruct (decide (a = 43%N)) as [->|H2].
    { exists false, (t ++ [c]). split; [done|]. right. by exists t. }
    exists false, (a :: t ++ [c]). split; [|right; by exists (a :: t)].
    unfold split_sign. destruct a as [|q]; [done|].
    repeat (destruct q as [q|q|]; try done).
Qed.

(** A text whose last character is neither a digit nor white space is no
    numeral. *)
Lemma int_of_str_bad_last t c :
  digit_value c = None -> int_space c = false ->
  int_of_str (t ++ [c]) = Raise ValueError.
Proof.
  intros Hd Hs. unfold int_of_str, strip_by.
  destruct (lstrip_by_head int_space (t ++ [c])) as [E|(a & u & E & Ha)].
  - exfalso. clear -E Hs. induction t as [|a t IH]; simpl in E.
    + by rewrite Hs in E.
    + destruct (int_space a); [by apply IH|done].
  - assert (exists v, lstrip_by int_space (t ++ [c]) = v ++ [c]) as [v Hv].
    { clear -Hs. induction t as [|a t [v IH]]; simpl.
      - rewrite Hs. by exists [].
      - destruct (int_space a); [by exists v|]. by exists (a :: t). }
    rewrite Hv, rstrip_by_snoc by done.
    destruct (split_sign_snoc v c) as (negative & w & -> & Hw). simpl.
    destruct Hw as [->|[w' ->]]; [done|].
    by rewrite int_digits_bad_last.
Qed.

End BadNumerals.

(** ** Links built from their parts *)

Section Links.
Import Server Spec Lines.

Implicit Types (s x y userinfo host inner : str).

Lemma no_char_app c x y : no_char c x -> no_char c y -> no_char c (x ++ y).
Proof. apply Forall_app_2. Qed.

Lemma no_char_cons c d x : d <> c -> no_char c x -> no_char c (d :: x).
Proof. by constructor. Qed.

Lemma no_char_replicate c d n : d <> c -> no_char c (replicate n d).
Proof. intros H. apply Forall_replicate. done. Qed.

Lemma no_char_digits c p :
  is_digit c = false -> forallb is_digit p = true -> no_char c p.
Proof.
  intros Hc Hp. apply Forall_forall. intros d Hd ->.
  rewrite forallb_forall in Hp. apply list_elem_of_In in Hd.
  by rewrite (Hp _ Hd) in Hc.
Qed.

Lemma no_char_with_port c port_text :
  c <> 58%N -> is_digit c = false ->
  match port_text with Some p => is_port_text p | None => True end ->
  no_char c (with_port port_text).
Proof.
  intros H1 H2 Hp. destruct port_text as [p|]; [|by constructor].
  destruct Hp as [_ Hp]. apply no_char_cons; [done|by apply no_char_digits].
Qed.

Lemma no_char_with_query c query :
  c <> 63%N ->
  match query with Some q => no_char c q | None => True end ->
  no_char c (with_query query).
Proof.
  intros H Hq. destruct query as [q|]; [|by constructor].
  by apply no_char_cons.
Qed.

Lemma first_part_split_at c x y :
  no_char c x -> first_part (split [c] (x ++ c :: y)) = x.
Proof.
  intros H. rewrite first_part_split by done.
  by rewrite find_single_app, take_app_length.
Qed.

Lemma first_part_split_none c x :
  no_char c x -> first_part (split [c] x) = x.
Proof.
  intros H. rewrite first_part_split by done.
  pose proof (contains_single_absent c x H) as E. unfold contains in E.
  by destruct (find [c] x).
Qed.

Lemma split_fragment_label body label :
  no_char 35%N body ->
  split_fragment (body ++ with_label label) = Ok (body, default [] label).
Proof.
  intros Hbody. unfold split_fragment, with_label.
  destruct label as [l|]; simpl default.
  - change (lit "#" ++ l) with (35%N :: l). change (lit "#") with [35%N].
    rewrite contains_single_app.
    rewrite (unpack2_split1 _ _ (length body)) by by apply find_single_app.
    by rewrite take_app_length, drop_past.
  - rewrite app_nil_r. change (lit "#") with [35%N].
    by rewrite contains_single_absent.
Qed.

(** The text between the [@] and the label: the host part is what is left
    of it once the query and the slashes before it are gone. *)
Lemma host_part_of hp slashes query :
  no_char 63%N hp -> rstrip_chars (lit "/") hp = hp ->
  rstrip_chars (lit "/")
    (first_part (split (lit "?")
                   (hp ++ replicate slashes 47%N ++ with_query query)))
  = hp.
Proof.
  intros Hq Hs.
  assert (first_part (split (lit "?")
                        (hp ++ replicate slashes 47%N ++ with_query query))
          = hp ++ replicate slashes 47%N) as ->.
  { change (lit "?") with [63%N]. destruct query as [q|]; simpl with_query.
    - rewrite app_assoc. change (lit "?" ++ q) with (63%N :: q).
      apply first_part_split_at, no_char_app; [done|].
      by apply no_char_replicate.
    - rewrite app_nil_r. apply first_part_split_none, no_char_app; [done|].
      by apply no_char_replicate. }
  unfold rstrip_chars in *. by rewrite rstrip_by_drop.
Qed.

Lemma rstrip_slash_port host p :
  is_port_text p ->
  rstrip_chars (lit "/") (host ++ lit ":" ++ p) = host ++ lit ":" ++ p.
Proof.
  intros [Hne Hp]. destruct (exists_last Hne) as (p' & d & ->).
  rewrite forallb_app in Hp. apply andb_true_iff in Hp as [_ Hd].
  simpl in Hd. apply andb_true_iff in Hd as [Hd _].
  change (lit ":" ++ p' ++ [d]) with (58%N :: p' ++ [d]).
  change (host ++ 58%N :: p' ++ [d]) with (host ++ (58%N :: p') ++ [d]).
  rewrite app_assoc. apply rstrip_by_snoc.
  apply is_digit_cases in Hd. simpl in Hd.
  repeat (destruct Hd as [<-|Hd]; [done|]). done.
Qed.

(** The host and the port of a host part. *)
Lemma split_host_port_built host p :
  readable_port_text p ->
  split_host_port (host ++ lit ":" ++ p) = Ok (host, decimal p).
Proof.
  intros [[Hne Hp] Hshort]. unfold split_host_port.
  change (lit ":" ++ p) with (58%N :: p). change (lit ":") with [58%N].
  rewrite (unpack2_rsplit1 _ _ (length host))
    by by apply rfind_single_app, no_char_digits.
  cbn [mbind result_bind bind].
  rewrite take_app_length, drop_past, int_of_str_decimal by done.
  done.
Qed.

(** What the decoders of vless and trojan see of a built link: the label
    and the text after the first [@]. *)
Lemma uri_line_parts userinfo host_text label :
  no_char 64%N userinfo -> no_char 35%N userinfo -> no_char 35%N host_text ->
  split_fragment (userinfo ++ lit "@" ++ host_text ++ with_label label)
  = Ok (userinfo ++ lit "@" ++ host_text, default [] label)
  /\ contains (lit "@") (userinfo ++ lit "@" ++ host_text) = true
  /\ unpack2 (split1 (lit "@") (userinfo ++ lit "@" ++ host_text))
     = Ok (userinfo, host_text).
Proof.
  intros H1 H2 H3. split; [|split].
  - rewrite <- split_fragment_label.
    + by rewrite <- !app_assoc.
    + apply no_char_app; [done|]. by apply no_char_cons.
  - change (lit "@" ++ host_text) with (64%N :: host_text).
    apply contains_single_app.
  - change (lit "@" ++ host_text) with (64%N :: host_text).
    change (lit "@") with [64%N].
    rewrite (unpack2_split1 _ _ (length userinfo)) by by apply find_single_app.
    by rewrite take_app_length, drop_past.
Qed.

End Links.

Section LinkRoundTrips.
Import Server Spec Lines.

Implicit Types (s x y userinfo host inner : str).

(** The host part of a built link is well formed for [host_part_of]. *)
Lemma built_host_part host port_text :
  no_char 63%N host ->
  match port_text with
  | Some p => is_port_text p
  | None => rstrip_chars (lit "/") host = host
  end ->
  no_char 63%N (host ++ with_port port_text)
  /\ rstrip_chars (lit "/") (host ++ with_port port_text)
     = host ++ with_port port_text.
Proof.
  intros Hq Hp. destruct port_text as [p|]; simpl with_port.
  - split; [|by apply rstrip_slash_port].
    apply no_char_app; [done|]. apply no_char_cons; [done|].
    destruct Hp. by apply no_char_digits.
  - by rewrite app_nil_r.
Qed.

Lemma built_host_text_no_hash host port_text slashes query :
  no_char 35%N host ->
  match port_text with Some p => is_port_text p | None => True end ->
  match query with Some q => no_char 35%N q | None => True end ->
  no_char 35%N
    (host ++ with_port port_text ++ replicate slashes 47%N ++ with_query query).
Proof.
  intros Hh Hp Hq. apply no_char_app; [done|].
  apply no_char_app; [by apply no_char_with_port|].
  apply no_char_app; [by apply no_char_replicate|].
  by apply no_char_with_query.
Qed.

Lemma port_text_weaken (P : Prop) port_text :
  match port_text with Some p => readable_port_text p | None => P end ->
  match port_text with Some p => is_port_text p | None => True end.
Proof. destruct port_text; [by intros [? _]|done]. Qed.

(** The host and the port the last colon of a built host part gives. *)
Lemma host_and_port_built host port_text :
  match port_text with
  | Some p => readable_port_text p
  | None => no_char 58%N host
  end ->
  (if contains (lit ":") (host ++ with_port port_text)
   then split_host_port (host ++ with_port port_text)
   else Ok (host ++ with_port port_text, 443%Z))
  = Ok (host, port_or_default port_text).
Proof.
  intros Hp. destruct port_text as [p|]; simpl with_port.
  - change (lit ":" ++ p) with (58%N :: p). change (lit ":") with [58%N].
    rewrite contains_single_app. by apply split_host_port_built.
  - rewrite app_nil_r. change (lit ":") with [58%N].
    by rewrite contains_single_absent.
Qed.

(** X1.  A trojan link built from its parts decodes to those parts, the
    port text being one [int] reads: decimal digits, no more of them than
    [int] takes. *)
Theorem trojan_round_trip
    userinfo host port_text slashes query label :
  no_char 64%N userinfo -> no_char 35%N userinfo ->
  no_char 35%N host -> no_char 63%N host -> strip host = host ->
  match port_text with
  | Some p => readable_port_text p
  | None => no_char 58%N host /\ rstrip_chars (lit "/") host = host
  end ->
  match query with Some q => no_char 35%N q | None => True end ->
  exists n c t b,
    parse_config_name (default [] label) = Ok (n, c, t, b)
    /\ parse_trojan
         (uri_line "trojan://" userinfo host port_text slashes query label)
       = Ok (Some (Config (lit "trojan") host (port_or_default port_text)
                     n c t b)).
Proof.
  intros Hu1 Hu2 Hh1 Hh2 Hstrip Hp Hq.
  destruct (parse_config_name_total (default [] label))
    as (n & c & t & b & Hname).
  exists n, c, t, b. split; [done|].
  set (host_text := host ++ with_port port_text ++ replicate slashes 47%N
                    ++ with_query query).
  assert (no_char 35%N host_text) as Hhash.
  { apply built_host_text_no_hash; [done| |done].
    by apply port_text_weaken in Hp. }
  destruct (uri_line_parts userinfo host_text label Hu1 Hu2 Hhash)
    as (E1 & E2 & E3).
  destruct (built_host_part host port_text Hh2) as [B1 B2];
    [destruct port_text; [by destruct Hp|by destruct Hp]|].
  unfold parse_trojan, parse_trojan_body, uri_line.
  change (drop 9 (lit "trojan://" ++ ?x)) with x.
  replace (userinfo ++ lit "@" ++ host ++ with_port port_text
           ++ replicate slashes 47%N ++ with_query query ++ with_label label)
    with (userinfo ++ lit "@" ++ host_text ++ with_label label)
    by (unfold host_text; by rewrite <- !app_assoc).
  rewrite E1. cbn [mbind result_bind bind]. rewrite E2, E3.
  cbn [mbind result_bind bind]. unfold host_text.
  rewrite (app_assoc host), host_part_of by done.
  rewrite host_and_port_built by (destruct port_text; [done|by destruct Hp]).
  cbn [mbind result_bind bind]. unfold make_config. rewrite Hname.
  cbn [mbind result_bind bind try_except]. by rewrite Hstrip.
Qed.

Lemma startswith_bracket_app host y :
  host <> [] -> startswith (lit "[") (host ++ y) = startswith (lit "[") host.
Proof. by destruct host. Qed.

(** X2.  A vless link whose host does not start with a bracket decodes to
    its parts, the port text being one [int] reads. *)
Theorem vless_round_trip
    userinfo host port_text slashes query label :
  no_char 64%N userinfo -> no_char 35%N userinfo ->
  no_char 35%N host -> no_char 63%N host -> strip host = host ->
  startswith (lit "[") host = false ->
  match port_text with
  | Some p => readable_port_text p
  | None => no_char 58%N host /\ rstrip_chars (lit "/") host = host
  end ->
  match query with Some q => no_char 35%N q | None => True end ->
  exists n c t b,
    parse_config_name (default [] label) = Ok (n, c, t, b)
    /\ parse_vless
         (uri_line "vless://" userinfo host port_text slashes query label)
       = Ok (Some (Config (lit "vless") host (port_or_default port_text)
                     n c t b)).
Proof.
  intros Hu1 Hu2 Hh1 Hh2 Hstrip Hbr Hp Hq.
  destruct (parse_config_name_total (default [] label))
    as (n & c & t & b & Hname).
  exists n, c, t, b. split; [done|].
  set (host_text := host ++ with_port port_text ++ replicate slashes 47%N
                    ++ with_query query).
  assert (no_char 35%N host_text) as Hhash.
  { apply built_host_text_no_hash; [done| |done].
    by apply port_text_weaken in Hp. }
  destruct (uri_line_parts userinfo host_text label Hu1 Hu2 Hhash)
    as (E1 & E2 & E3).
  destruct (built_host_part host port_text Hh2) as [B1 B2];
    [destruct port_text; [by destruct Hp|by destruct Hp]|].
  unfold parse_vless, parse_vless_body, uri_line.
  change (drop 8 (lit "vless://" ++ ?x)) with x.
  replace (userinfo ++ lit "@" ++ host ++ with_port port_text
           ++ replicate slashes 47%N ++ with_query query ++ with_label label)
    with (userinfo ++ lit "@" ++ host_text ++ with_label label)
    by (unfold host_text; by rewrite <- !app_assoc).
  rewrite E1. cbn [mbind result_bind bind]. rewrite E2, E3.
  cbn [mbind result_bind bind]. unfold host_text.
  rewrite (app_assoc host), host_part_of by done.
  assert (startswith (lit "[") (host ++ with_port port_text) = false) as ->.
  { destruct host as [|a host]; [|done]. by destruct port_text. }
  rewrite host_and_port_built by (destruct port_text; [done|by destruct Hp]).
  cbn [mbind result_bind bind]. unfold make_config. rewrite Hname.
  cbn [mbind result_bind bind try_except]. by rewrite Hstrip.
Qed.

End LinkRoundTrips.

Section BracketedHosts.
Import Server Spec Lines.

Implicit Types (s x y userinfo host inner : str).

(** A host in brackets. *)
Lemma bracketed_strip inner :
  strip (lit "[" ++ inner ++ lit "]") = lit "[" ++ inner ++ lit "]".
Proof. by apply (strip_by_between isspace 91%N inner 93%N). Qed.

Lemma no_char_bracketed c inner :
  c <> 91%N -> c <> 93%N -> no_char c inner ->
  no_char c (lit "[" ++ inner ++ lit "]").
Proof.
  intros H1 H2 H. change (lit "[" ++ inner ++ lit "]")
    with (91%N :: inner ++ [93%N]).
  apply no_char_cons; [done|]. apply no_char_app; [done|].
  apply no_char_cons; [done|]. constructor.
Qed.

Lemma bracketed_index inner y :
  no_char 93%N inner ->
  index (lit "]") ((lit "[" ++ inner ++ lit "]") ++ y)
  = Ok (S (length inner)).
Proof.
  intros H. unfold index. change (lit "]") with [93%N].
  change ((lit "[" ++ inner ++ [93%N]) ++ y)
    with ((91%N :: inner ++ [93%N]) ++ y).
  replace ((91%N :: inner ++ [93%N]) ++ y) with ((91%N :: inner) ++ 93%N :: y)
    by (simpl; by rewrite <- app_assoc).
  by rewrite find_single_app by by apply no_char_cons.
Qed.

(** X3.  A vless link whose host is in brackets keeps the brackets, with
    the port after them, its text being one [int] reads, or 443. *)
Theorem vless_bracket_round_trip
    userinfo inner port_text slashes query label :
  no_char 64%N userinfo -> no_char 35%N userinfo ->
  no_char 35%N inner -> no_char 63%N inner -> no_char 93%N inner ->
  match port_text with
  | Some p => readable_port_text p
  | None => True
  end ->
  match query with Some q => no_char 35%N q | None => True end ->
  exists n c t b,
    parse_config_name (default [] label) = Ok (n, c, t, b)
    /\ parse_vless
         (uri_line "vless://" userinfo (lit "[" ++ inner ++ lit "]")
            port_text slashes query label)
       = Ok (Some (Config (lit "vless") (lit "[" ++ inner ++ lit "]")
                     (port_or_default port_text) n c t b)).
Proof.
  intros Hu1 Hu2 Hi1 Hi2 Hi3 Hp Hq.
  pose proof (port_text_weaken _ _ Hp) as Hp'.
  destruct (parse_config_name_total (default [] label))
    as (n & c & t & b & Hname).
  exists n, c, t, b. split; [done|].
  set (host := lit "[" ++ inner ++ lit "]").
  assert (no_char 35%N host /\ no_char 63%N host) as [Hh1 Hh2].
  { split; by apply no_char_bracketed. }
  set (host_text := host ++ with_port port_text ++ replicate slashes 47%N
                    ++ with_query query).
  assert (no_char 35%N host_text) as Hhash
    by by apply built_host_text_no_hash.
  destruct (uri_line_parts userinfo host_text label Hu1 Hu2 Hhash)
    as (E1 & E2 & E3).
  destruct (built_host_part host port_text Hh2) as [B1 B2].
  { destruct port_text; [done|].
    exact (rstrip_by_snoc _ (91%N :: inner) 93%N eq_refl). }
  unfold parse_vless, parse_vless_body, uri_line.
  change (drop 8 (lit "vless://" ++ ?x)) with x.
  replace (userinfo ++ lit "@" ++ host ++ with_port port_text
           ++ replicate slashes 47%N ++ with_query query ++ with_label label)
    with (userinfo ++ lit "@" ++ host_text ++ with_label label)
    by (unfold host_text; by rewrite <- !app_assoc).
  rewrite E1. cbn [mbind result_bind bind]. rewrite E2, E3.
  cbn [mbind result_bind bind]. unfold host_text.
  rewrite (app_assoc host), host_part_of by done.
  change (startswith (lit "[") (host ++ with_port port_text)) with true.
  cbv iota. unfold host. rewrite bracketed_index by done.
  cbn [mbind result_bind bind].
  replace (S (length inner) + 1) with (length (lit "[" ++ inner ++ lit "]"))
    by (simpl; rewrite length_app; simpl; lia).
  rewrite take_app_length, drop_app_length.
  unfold make_config.
  destruct port_text as [p|]; unfold with_port, port_or_default.
  - change (startswith (lit ":") (lit ":" ++ p)) with true. cbv iota.
    change (drop 1 (lit ":" ++ p)) with p.
    destruct Hp as [[Hne Hp] Hshort]. rewrite int_of_str_decimal by done.
    cbn [mbind result_bind bind]. rewrite Hname.
    cbn [mbind result_bind bind try_except]. by rewrite bracketed_strip.
  - change (startswith (lit ":") []) with false. cbv iota.
    cbn [mbind result_bind bind]. rewrite Hname.
    cbn [mbind result_bind bind try_except]. by rewrite bracketed_strip.
Qed.

(** X4.  A trojan link whose host is in brackets, holds a colon and has no
    port after it has no record: the text after the last colon ends with
    the closing bracket and is no numeral. *)
Theorem trojan_bracket_without_port
    userinfo inner slashes query label :
  no_char 64%N userinfo -> no_char 35%N userinfo ->
  no_char 35%N inner -> no_char 63%N inner ->
  contains (lit ":") inner = true ->
  match query with Some q => no_char 35%N q | None => True end ->
  parse_trojan
    (uri_line "trojan://" userinfo (lit "[" ++ inner ++ lit "]") None
       slashes query label)
  = Ok None.
Proof.
  intros Hu1 Hu2 Hi1 Hi2 Hcolon Hq.
  set (host := lit "[" ++ inner ++ lit "]").
  assert (no_char 35%N host /\ no_char 63%N host) as [Hh1 Hh2].
  { split; by apply no_char_bracketed. }
  set (host_text := host ++ with_port None ++ replicate slashes 47%N
                    ++ with_query query).
  assert (no_char 35%N host_text) as Hhash
    by by apply built_host_text_no_hash.
  destruct (uri_line_parts userinfo host_text label Hu1 Hu2 Hhash)
    as (E1 & E2 & E3).
  destruct (built_host_part host None Hh2) as [B1 B2].
  { exact (rstrip_by_snoc _ (91%N :: inner) 93%N eq_refl). }
  apply (try_except_Raise _ _ ValueError); [apply raises_parse_trojan_body|].
  unfold parse_trojan_body, uri_line.
  change (drop 9 (lit "trojan://" ++ ?x)) with x.
  replace (userinfo ++ lit "@" ++ host ++ with_port None
           ++ replicate slashes 47%N ++ with_query query ++ with_label label)
    with (userinfo ++ lit "@" ++ host_text ++ with_label label)
    by (unfold host_text; by rewrite <- !app_assoc).
  rewrite E1. cbn [mbind result_bind bind]. rewrite E2, E3.
  cbn [mbind result_bind bind]. unfold host_text.
  rewrite (app_assoc host), host_part_of by done.
  unfold with_port. rewrite app_nil_r.
  assert (exists i, rfind (lit ":") host = Some i) as [i Hi].
  { apply find_rfind; [done|]. apply contains_find in Hcolon as [j Hj].
    apply contains_find. unfold host.
    change (lit "[" ++ inner ++ lit "]") with (91%N :: inner ++ [93%N]).
    destruct (contains (lit ":") (91%N :: inner ++ [93%N])) eqn:E; [done|].
    unfold contains in E. destruct (find _ (91%N :: _)) eqn:F; [done|].
    pose proof (find_None _ _ F (S j)) as H. simpl in H.
    destruct (find_Some _ _ _ Hj) as (G & _ & _).
    apply startswith_true in G as [u G]. rewrite drop_app_le in H.
    - rewrite G in H. change (lit ":" ++ u) with (58%N :: u) in H.
      by vm_compute in H.
    - apply (f_equal length) in G. rewrite length_drop, length_app in G.
      change (length (lit ":")) with 1 in G. lia. }
  assert (contains (lit ":") host = true) as ->.
  { apply contains_find, find_rfind; [done|eauto]. }
  unfold split_host_port. rewrite (unpack2_rsplit1 _ _ _ Hi).
  cbn [mbind result_bind bind].
  assert (lit ":" <> []) as Hsep by done.
  destruct (rfind_Some _ _ _ Hsep Hi) as (G1 & G2 & _).
  assert (exists v, drop (i + length (lit ":")) host = v ++ [93%N]) as [v ->].
  { unfold host in G1 |- *. change (lit "[" ++ inner ++ lit "]")
      with ((91%N :: inner) ++ [93%N]) in G1 |- *.
    apply startswith_true in G1 as [u G1].
    assert (i < length (91%N :: inner)) as Hlt.
    { destruct (decide (i < length (91%N :: inner))) as [|Hge]; [done|].
      exfalso. rewrite drop_app_ge in G1 by lia.
      destruct (i - length (91%N :: inner)) as [|k]; simpl in G1; [done|].
      by destruct k. }
    exists (drop (i + 1) (91%N :: inner)).
    change (length (lit ":")) with 1. by rewrite drop_app_le by lia. }
  by rewrite int_of_str_bad_last.
Qed.

End BracketedHosts.

(** ** Plain shadowsocks links *)

Section PlainShadowsocks.
Import Server Spec Lines.

Implicit Types (s x y userinfo host inner : str).

(** What the decoder of shadowsocks sees of a built link: the label and
    the text after the last [@]. *)
Lemma ss_line_parts userinfo host_text label :
  no_char 35%N userinfo -> no_char 35%N host_text -> no_char 64%N host_text ->
  split_fragment (userinfo ++ lit "@" ++ host_text ++ with_label label)
  = Ok (userinfo ++ lit "@" ++ host_text, default [] label)
  /\ contains (lit "@") (userinfo ++ lit "@" ++ host_text) = true
  /\ unpack2 (rsplit1 (lit "@") (userinfo ++ lit "@" ++ host_text))
     = Ok (userinfo, host_text).
Proof.
  intros H1 H2 H3. split; [|split].
  - rewrite <- split_fragment_label.
    + by rewrite <- !app_assoc.
    + apply no_char_app; [done|]. by apply no_char_cons.
  - change (lit "@" ++ host_text) with (64%N :: host_text).
    apply contains_single_app.
  - change (lit "@" ++ host_text) with (64%N :: host_text).
    change (lit "@") with [64%N].
    rewrite (unpack2_rsplit1 _ _ (length userinfo))
      by by apply rfind_single_app.
    by rewrite take_app_length, drop_past.
Qed.

Lemma no_char_port c p : c <> 58%N -> is_digit c = false ->
  is_port_text p -> no_char c (lit ":" ++ p).
Proof. intros H1 H2 Hp. by apply (no_char_with_port c (Some p)). Qed.

(** The shadowsocks decoder trims the slashes first and cuts the query
    after that. *)
Lemma ss_host_part hp slashes query :
  no_char 63%N hp -> rstrip_chars (lit "/") hp = hp ->
  slashes = 0 \/ query = None ->
  first_part (split (lit "?")
    (rstrip_chars (lit "/")
       (hp ++ replicate slashes 47%N ++ with_query query)))
  = hp.
Proof.
  intros Hq Hs Hone. change (lit "?") with [63%N]. unfold rstrip_chars in *.
  destruct query as [q|]; simpl with_query.
  - destruct Hone as [->|?]; [|done]. simpl replicate. rewrite app_nil_l.
    change (lit "?" ++ q) with (63%N :: q).
    rewrite rstrip_by_app_keep by done. by apply first_part_split_at.
  - rewrite app_nil_r, rstrip_by_drop, Hs by done.
    by apply first_part_split_none.
Qed.

(** X5.  A plain shadowsocks link, with slashes or a query after the port,
    decodes to its host and port, the port text being one [int] reads. *)
Theorem ss_plain_round_trip
    userinfo host p slashes query label :
  no_char 35%N userinfo ->
  no_char 35%N host -> no_char 64%N host -> no_char 63%N host ->
  strip host = host -> readable_port_text p ->
  match query with
  | Some q => no_char 35%N q /\ no_char 64%N q
  | None => True
  end ->
  slashes = 0 \/ query = None ->
  exists n c t b,
    parse_config_name (default [] label) = Ok (n, c, t, b)
    /\ parse_ss (uri_line "ss://" userinfo host (Some p) slashes query label)
       = Ok (Some (Config (lit "shadowsocks") host (decimal p) n c t b)).
Proof.
  intros Hu Hh1 Hh2 Hh3 Hstrip Hread Hq Hone.
  pose proof (proj1 Hread) as Hp.
  destruct (parse_config_name_total (default [] label))
    as (n & c & t & b & Hname).
  exists n, c, t, b. split; [done|].
  set (host_text := host ++ with_port (Some p) ++ replicate slashes 47%N
                    ++ with_query query).
  assert (no_char 35%N host_text) as Hhash.
  { apply built_host_text_no_hash; [done|done|]. destruct query; [|done].
    by destruct Hq. }
  assert (no_char 64%N host_text) as Hat.
  { apply no_char_app; [done|]. apply no_char_app; [by apply no_char_port|].
    apply no_char_app; [by apply no_char_replicate|].
    apply no_char_with_query; [done|]. destruct query; [|done].
    by destruct Hq. }
  destruct (ss_line_parts userinfo host_text label Hu Hhash Hat)
    as (E1 & E2 & E3).
  destruct (built_host_part host (Some p) Hh3 Hp) as [B1 B2].
  unfold parse_ss, parse_ss_body, parse_ss_with, uri_line.
  change (drop 5 (lit "ss://" ++ ?x)) with x.
  replace (userinfo ++ lit "@" ++ host ++ with_port (Some p)
           ++ replicate slashes 47%N ++ with_query query ++ with_label label)
    with (userinfo ++ lit "@" ++ host_text ++ with_label label)
    by (unfold host_text; by rewrite <- !app_assoc).
  rewrite E1. cbn [mbind result_bind bind]. rewrite E2, E3.
  cbn [mbind result_bind bind]. unfold host_text.
  rewrite (app_assoc host), ss_host_part by done.
  pose proof (host_and_port_built host (Some p) Hread) as HP.
  unfold with_port, port_or_default in *.
  change (lit ":" ++ p) with (58%N :: p) in *. change (lit ":") with [58%N] in *.
  rewrite contains_single_app in *. rewrite HP.
  cbn [mbind result_bind bind]. unfold make_config. rewrite Hname.
  cbn [mbind result_bind bind try_except]. by rewrite Hstrip.
Qed.

(** X6.  Slashes between the port and a query spoil a shadowsocks link: the
    slashes are trimmed from the end of the text before the query is cut
    off, so they stay behind the port and the port is no numeral. *)
Theorem ss_slash_before_query
    userinfo host p slashes q label :
  no_char 35%N userinfo ->
  no_char 35%N host -> no_char 64%N host -> no_char 63%N host ->
  is_port_text p -> no_char 35%N q -> no_char 64%N q ->
  parse_ss
    (uri_line "ss://" userinfo host (Some p) (S slashes) (Some q) label)
  = Ok None.
Proof.
  intros Hu Hh1 Hh2 Hh3 Hp Hq1 Hq2.
  set (host_text := host ++ with_port (Some p)
                    ++ replicate (S slashes) 47%N ++ with_query (Some q)).
  assert (no_char 35%N host_text) as Hhash
    by by apply built_host_text_no_hash.
  assert (no_char 64%N host_text) as Hat.
  { apply no_char_app; [done|]. apply no_char_app; [by apply no_char_port|].
    apply no_char_app; [by apply no_char_replicate|].
    by apply no_char_with_query. }
  destruct (ss_line_parts userinfo host_text label Hu Hhash Hat)
    as (E1 & E2 & E3).
  apply (try_except_Raise _ _ ValueError); [apply raises_parse_ss_with|].
  unfold parse_ss_body, parse_ss_with, uri_line.
  change (drop 5 (lit "ss://" ++ ?x)) with x.
  replace (userinfo ++ lit "@" ++ host ++ with_port (Some p)
           ++ replicate (S slashes) 47%N ++ with_query (Some q)
           ++ with_label label)
    with (userinfo ++ lit "@" ++ host_text ++ with_label label)
    by (unfold host_text; by rewrite <- !app_assoc).
  rewrite E1. cbn [mbind result_bind bind]. rewrite E2, E3.
  cbn [mbind result_bind bind]. unfold host_text, with_port, with_query.
  set (kept := p ++ replicate (S slashes) 47%N).
  assert (first_part (split (lit "?") (rstrip_chars (lit "/")
            (host ++ (lit ":" ++ p) ++ replicate (S slashes) 47%N
             ++ lit "?" ++ q)))
          = host ++ 58%N :: kept) as ->.
  { change (lit "?" ++ q) with (63%N :: q). change (lit ":" ++ p) with (58%N :: p).
    replace (host ++ (58%N :: p) ++ replicate (S slashes) 47%N ++ 63%N :: q)
      with ((host ++ 58%N :: kept) ++ 63%N :: q)
      by (unfold kept; rewrite <- !app_assoc; simpl;
          by rewrite <- ?app_assoc).
    unfold rstrip_chars. rewrite rstrip_by_app_keep by done.
    change (lit "?") with [63%N]. apply first_part_split_at.
    apply no_char_app; [done|]. apply no_char_cons; [done|].
    apply no_char_app; [|by apply no_char_replicate].
    destruct Hp. by apply no_char_digits. }
  change (lit ":") with [58%N]. rewrite contains_single_app.
  unfold split_host_port. change (lit ":") with [58%N].
  rewrite (unpack2_rsplit1 _ _ (length host)).
  2:{ apply rfind_single_app, no_char_app; [|by apply no_char_replicate].
      destruct Hp. by apply no_char_digits. }
  cbn [mbind result_bind bind]. rewrite drop_past.
  unfold kept. rewrite replicate_S_end, app_assoc.
  by rewrite int_of_str_bad_last.
Qed.

Lemma no_char_lstrip_by c p s : no_char c s -> no_char c (lstrip_by p s).
Proof.
  induction 1 as [|a s Ha Hs IH]; simpl; [constructor|].
  destruct (p a); [done|by constructor].
Qed.

Lemma no_char_rstrip_by c p s : no_char c s -> no_char c (rstrip_by p s).
Proof.
  intros H. unfold rstrip_by. apply Forall_rev, no_char_lstrip_by.
  by apply Forall_rev.
Qed.

(** X7.  Shadowsocks has no default port: a plain link without a colon in
    its host part has no record. *)
Theorem ss_plain_without_port
    userinfo host slashes query label :
  no_char 35%N userinfo ->
  no_char 35%N host -> no_char 64%N host -> no_char 63%N host ->
  no_char 58%N host ->
  match query with
  | Some q => no_char 35%N q /\ no_char 64%N q
  | None => True
  end ->
  parse_ss (uri_line "ss://" userinfo host None slashes query label)
  = Ok None.
Proof.
  intros Hu Hh1 Hh2 Hh4 Hh3 Hq.
  set (host_text := host ++ with_port None ++ replicate slashes 47%N
                    ++ with_query query).
  assert (no_char 35%N host_text) as Hhash.
  { apply built_host_text_no_hash; [done|done|]. destruct query; [|done].
    by destruct Hq. }
  assert (no_char 64%N host_text) as Hat.
  { apply no_char_app; [done|]. apply no_char_app; [by constructor|].
    apply no_char_app; [by apply no_char_replicate|].
    apply no_char_with_query; [done|]. destruct query; [|done].
    by destruct Hq. }
  destruct (ss_line_parts userinfo host_text label Hu Hhash Hat)
    as (E1 & E2 & E3).
  unfold parse_ss, parse_ss_body, parse_ss_with, uri_line.
  change (drop 5 (lit "ss://" ++ ?x)) with x.
  replace (userinfo ++ lit "@" ++ host ++ with_port None
           ++ replicate slashes 47%N ++ with_query query ++ with_label label)
    with (userinfo ++ lit "@" ++ host_text ++ with_label label)
    by (unfold host_text; by rewrite <- !app_assoc).
  rewrite E1. cbn [mbind result_bind bind]. rewrite E2, E3.
  cbn [mbind result_bind bind]. unfold host_text, with_port.
  rewrite app_nil_l.
  assert (no_char 58%N
            (first_part (split (lit "?") (rstrip_chars (lit "/")
               (host ++ replicate slashes 47%N ++ with_query query)))))
    as Hnone.
  { change (lit "?") with [63%N]. unfold rstrip_chars.
    destruct query as [q|]; simpl with_query.
    - change (lit "?" ++ q) with (63%N :: q).
      rewrite app_assoc, rstrip_by_app_keep by done.
      rewrite first_part_split_at
        by (apply no_char_app; [done|by apply no_char_replicate]).
      apply no_char_app; [done|by apply no_char_replicate].
    - rewrite app_nil_r, rstrip_by_drop by done.
      rewrite first_part_split_none by by apply no_char_rstrip_by.
      by apply no_char_rstrip_by. }
  change (lit ":") with [58%N]. by rewrite contains_single_absent.
Qed.

End PlainShadowsocks.

(** ** What every record has *)

Section Records.
Import Server Spec Lines.

Implicit Types (s x y raw : str) (r : config).

Lemma make_config_fields proto host p label r :
  make_config proto host p label = Ok (Some r) ->
  protocol r = lit proto /\ server r = strip host /\ port r = p
  /\ parse_config_name label
     = Ok (name r, country r, telegram_channel r, is_telegram r).
Proof.
  unfold make_config, mbind, result_bind, bind.
  destruct (parse_config_name label) as [[[[? ?] ?] ?]|]; [|done].
  by intros [= <-].
Qed.

(** A record of one of the three link decoders is built by [make_config]. *)
Lemma trojan_made s r :
  parse_trojan s = Ok (Some r) ->
  exists host p label, make_config "trojan" host p label = Ok (Some r).
Proof.
  intros H. apply try_except_Some in H. revert H.
  unfold parse_trojan_body, mbind, result_bind, bind.
  destruct (split_fragment _) as [[body label]|]; [|done].
  destruct (contains (lit "@") body); [|done].
  destruct (unpack2 _) as [[u host]|]; [|done].
  destruct (contains (lit ":") _).
  - destruct (split_host_port _) as [[h p]|]; [|done]. eauto.
  - eauto.
Qed.

Lemma vless_made s r :
  parse_vless s = Ok (Some r) ->
  exists host p label, make_config "vless" host p label = Ok (Some r).
Proof.
  intros H. apply try_except_Some in H. revert H.
  unfold parse_vless_body, mbind, result_bind, bind.
  destruct (split_fragment _) as [[body label]|]; [|done].
  destruct (contains (lit "@") body); [|done].
  destruct (unpack2 _) as [[u host]|]; [|done].
  destruct (startswith (lit "[") _).
  - destruct (index _ _) as [i|]; [|done].
    destruct (startswith (lit ":") _); [|eauto].
    destruct (int_of_str _) as [p|]; [|done]. eauto.
  - destruct (contains (lit ":") _); [|eauto].
    destruct (split_host_port _) as [[h p]|]; [|done]. eauto.
Qed.

Lemma ss_made s r :
  parse_ss s = Ok (Some r) ->
  exists host p label, make_config "shadowsocks" host p label = Ok (Some r).
Proof.
  intros H. apply try_except_Some in H. revert H.
  unfold parse_ss_body, parse_ss_with, mbind, result_bind, bind.
  destruct (split_fragment _) as [[body label]|]; [|done].
  destruct (contains (lit "@") body).
  - destruct (unpack2 _) as [[u host]|]; [|done].
    destruct (contains (lit ":") _); [|done].
    destruct (split_host_port _) as [[h p]|]; [|done]. eauto.
  - destruct (Base64.b64decode _) as [raw|]; [|done].
    destruct (contains (lit "@") _); [|done].
    destruct (unpack2 _) as [[u server_part]|]; [|done].
    destruct (contains (lit ":") server_part); [|done].
    destruct (split_host_port server_part) as [[h p]|]; [|done]. eauto.
Qed.

Lemma vmess_made s r :
  parse_vmess s = Ok (Some r) ->
  protocol r = lit "vmess"
  /\ (exists host, server r = strip host)
  /\ exists label,
       parse_config_name label
       = Ok (name r, country r, telegram_channel r, is_telegram r).
Proof.
  intros H. apply try_except_Some in H. revert H.
  unfold parse_vmess_body, mbind, result_bind, bind.
  destruct (vmess_payload s) as [data|]; [|done].
  destruct data as [| | | | | |d]; try done. simpl.
  destruct (int _) as [p|]; [|done].
  destruct (get d (lit "ps") _) as [| | | |label| |]; try done. simpl.
  destruct (parse_config_name label) as [[[[? ?] ?] ?]|] eqn:E; [|done].
  destruct (get d (lit "add") _) as [| | | |host| |]; try done. simpl.
  intros [= <-]. simpl. eauto.
Qed.

(** What a record of any decoder has: the name of its decoder, a server
    [strip] has been through, and the four fields of a label. *)
Lemma record_made raw r :
  parse_config raw = Ok (Some r) ->
  (exists host, server r = strip host)
  /\ (exists label,
        parse_config_name label
        = Ok (name r, country r, telegram_channel r, is_telegram r))
  /\ (startswith (lit "ss://") (strip raw) = true
        /\ protocol r = lit "shadowsocks"
      \/ startswith (lit "vless://") (strip raw) = true
           /\ protocol r = lit "vless"
      \/ startswith (lit "vmess://") (strip raw) = true
           /\ protocol r = lit "vmess"
      \/ startswith (lit "trojan://") (strip raw) = true
           /\ protocol r = lit "trojan").
Proof.
  unfold parse_config.
  destruct (startswith (lit "ss://") _) eqn:E1.
  { intros H. apply ss_made in H as (h & p & l & H).
    apply make_config_fields in H as (? & ? & ? & ?). eauto 10. }
  destruct (startswith (lit "vless://") _) eqn:E2.
  { intros H. apply vless_made in H as (h & p & l & H).
    apply make_config_fields in H as (? & ? & ? & ?). eauto 10. }
  destruct (startswith (lit "vmess://") _) eqn:E3.
  { intros H. apply vmess_made in H as (? & ? & ?). eauto 10. }
  destruct (startswith (lit "trojan://") _) eqn:E4; [|done].
  intros H. apply trojan_made in H as (h & p & l & H).
  apply make_config_fields in H as (? & ? & ? & ?). eauto 10.
Qed.

(** X8.  The protocol of a record is the one of the prefix of the trimmed
    line, and a line with none of the four prefixes has no record. *)
Theorem parse_config_protocol raw r :
  parse_config raw = Ok (Some r) ->
  startswith (lit "ss://") (strip raw) = true
    /\ protocol r = lit "shadowsocks"
  \/ startswith (lit "vless://") (strip raw) = true
       /\ protocol r = lit "vless"
  \/ startswith (lit "vmess://") (strip raw) = true
       /\ protocol r = lit "vmess"
  \/ startswith (lit "trojan://") (strip raw) = true
       /\ protocol r = lit "trojan".
Proof. intros H. by apply record_made in H as (_ & _ & H). Qed.

(** X9.  The server of a record has no white space at its ends. *)
Theorem record_server_trimmed raw r :
  parse_config raw = Ok (Some r) -> strip (server r) = server r.
Proof.
  intros H. apply record_made in H as ([host ->] & _). apply strip_idem.
Qed.

Lemma lstrip_by_padded p w s :
  forallb p w = true -> lstrip_by p (w ++ s) = lstrip_by p s.
Proof.
  induction w as [|a w IH]; [done|]. simpl. intros H.
  apply andb_true_iff in H as [-> H]. by apply IH.
Qed.

Lemma strip_by_snoc_gone p s b :
  p b = true -> strip_by p (s ++ [b]) = strip_by p s.
Proof.
  intros Hb. unfold strip_by. rewrite lstrip_by_snoc_gone by done.
  destruct (forallb p s) eqn:E.
  - by rewrite lstrip_by_all.
  - by apply rstrip_by_snoc_gone.
Qed.

Lemma strip_by_padded p w1 s w2 :
  forallb p w1 = true -> forallb p w2 = true ->
  strip_by p (w1 ++ s ++ w2) = strip_by p s.
Proof.
  intros H1 H2. induction w2 as [|b w2 IH] using rev_ind.
  - rewrite app_nil_r. unfold strip_by. by rewrite lstrip_by_padded.
  - rewrite forallb_app in H2. apply andb_true_iff in H2 as [H2 Hb].
    simpl in Hb. apply andb_true_iff in Hb as [Hb _].
    rewrite !app_assoc, strip_by_snoc_gone, <- app_assoc by done.
    by apply IH.
Qed.

(** X10.  White space around a line is ignored, whatever the line is. *)
Theorem parse_config_ignores_padding w1 raw w2 :
  forallb isspace w1 = true -> forallb isspace w2 = true ->
  parse_config (w1 ++ raw ++ w2) = parse_config raw.
Proof.
  intros H1 H2. unfold parse_config, strip. by rewrite strip_by_padded.
Qed.

End Records.

(** ** Labels *)

Section Labels.
Import Server Spec Lines.

Implicit Types (s x y label : str).

Lemma contains_app_intro sep x y : contains sep (x ++ sep ++ y) = true.
Proof.
  destruct (contains sep (x ++ sep ++ y)) eqn:E; [done|].
  unfold contains in E. destruct (find _ _) eqn:F; [done|].
  pose proof (find_None _ _ F (length x)) as H.
  rewrite drop_app_length in H.
  assert (startswith sep (sep ++ y) = true) as G
    by (apply startswith_true; by exists y).
  by rewrite G in H.
Qed.

Lemma contains_piece sep a s :
  piece_of a s -> contains sep a = true -> contains sep s = true.
Proof.
  intros (p & q & ->) H. apply contains_find in H as [i H].
  destruct (find_Some _ _ _ H) as (G & _ & _).
  apply startswith_true in G as [u G].
  rewrite <- (take_drop i a), G, <- !app_assoc, app_assoc.
  apply contains_app_intro.
Qed.

Lemma piece_of_strip_by p s : piece_of (strip_by p s) s.
Proof.
  unfold strip_by. eapply piece_of_trans; [apply piece_of_rstrip_by|].
  destruct (lstrip_by_suffix p s) as [t H]. exists t, [].
  by rewrite app_nil_r.
Qed.

Lemma contains_strip sep s :
  contains sep s = false -> contains sep (strip s) = false.
Proof.
  intros H. destruct (contains sep (strip s)) eqn:E; [|done].
  by rewrite (contains_piece sep _ s (piece_of_strip_by _ s) E) in H.
Qed.

(** Taking every [>>] out leaves none behind: what is left of two such
    characters in a row would have been taken out as well. *)
Lemma remove_arrows_head s :
  startswith [62%N] (remove_all [62%N; 62%N] s) = true ->
  startswith [62%N] s = true.
Proof.
  destruct s as [|c s]; [done|]. unfold remove_all.
  cbn [remove_from startswith].
  destruct (62 =? c)%N eqn:E; [done|]. cbn [andb startswith]. by rewrite E.
Qed.

Lemma remove_arrows_none s :
  contains [62%N; 62%N] (remove_all [62%N; 62%N] s) = false.
Proof.
  remember (length s) as n eqn:Hn. assert (length s <= n) as Hle by lia.
  clear Hn. revert s Hle.
  induction n as [|n IH]; intros s Hle.
  { by destruct s; [|simpl in Hle; lia]. }
  destruct s as [|c s]; [done|]. simpl in Hle.
  unfold remove_all. cbn [remove_from].
  destruct (startswith [62%N; 62%N] (c :: s)) eqn:E.
  - destruct s as [|d s];
      [cbn [startswith] in E; by rewrite andb_false_r in E|].
    cbn [length Nat.sub remove_from]. apply IH. simpl in Hle. lia.
  - fold (remove_all [62%N; 62%N] s).
    pose proof (IH s ltac:(lia)) as Hs.
    unfold contains in *. cbn [find].
    destruct (startswith [62%N; 62%N] (c :: remove_all _ s)) eqn:G.
    + exfalso. cbn [startswith] in G. apply andb_true_iff in G as [G1 G2].
      assert (startswith [62%N] (remove_all [62%N; 62%N] s) = true) as G3.
      { by destruct (remove_all _ s). }
      apply remove_arrows_head in G3.
      cbn [startswith] in E. rewrite G1 in E.
      destruct s; [done|]. cbn [startswith] in G3. by rewrite G3 in E.
    + by destruct (find _ (remove_all _ s)).
Qed.

(** X11.  The name a label gets never holds [>>]. *)
Theorem name_without_arrows label n c t b :
  parse_config_name label = Ok (n, c, t, b) ->
  contains (lit ">>") n = false.
Proof.
  unfold parse_config_name.
  set (decoded := Urllib.unquote label).
  set (nc := if contains (lit "::") decoded then _ else _).
  destruct nc as [name0 country0].
  set (name1 := if contains (lit ">>") name0 then _ else _).
  assert (contains (lit ">>") name1 = false) as Hname.
  { unfold name1. destruct (contains (lit ">>") name0) eqn:E; [|done].
    apply contains_strip. apply remove_arrows_none. }
  unfold mbind, result_bind, bind.
  destruct (if startswith _ _ then _ else _) as [[t' b']|]; [|done].
  by intros [= <- _ _ _].
Qed.

(** X12.  A label is flagged exactly when its trimmed name holds an [@] or
    one of the three tags, and a flagged label is one with a channel. *)
Theorem telegram_flag label n c t b :
  parse_config_name label = Ok (n, c, t, b) ->
  b = (contains (lit "@") (strip n)
       || existsb (fun tag => contains tag (lower (strip n))) telegram_tags)
  /\ (b = true <-> t <> None).
Proof.
  unfold parse_config_name.
  set (decoded := Urllib.unquote label).
  set (nc := if contains (lit "::") decoded then _ else _).
  destruct nc as [name0 country0].
  set (name1 := if contains (lit ">>") name0 then _ else _).
  unfold mbind, result_bind, bind, index.
  destruct (if startswith _ _ then _ else _) as [[t' b']|] eqn:B; [|done].
  intros [= <- _ <- <-]. revert B.
  destruct (startswith (lit "@") (strip name1)) eqn:E1.
  { intros [= <- <-].
    assert (contains (lit "@") (strip name1) = true) as ->.
    { apply startswith_true in E1 as [u ->].
      exact (contains_app_intro (lit "@") [] u). }
    done. }
  destruct (existsb _ telegram_tags) eqn:E2.
  { intros [= <- <-]. by rewrite orb_true_r. }
  rewrite orb_false_r. unfold contains.
  destruct (find (lit "@") (strip name1)) as [i|] eqn:F.
  - destruct (find_Some _ _ _ F) as (G & _ & _).
    apply startswith_true in G as [u G]. rewrite G.
    change (lit "@" ++ u) with (64%N :: u). cbv iota.
    by intros [= <- <-].
  - by intros [= <- <-].
Qed.

Lemma unquote_plain s : no_char 37%N s -> Urllib.unquote s = s.
Proof.
  intros H. unfold Urllib.unquote. change (lit "%") with [37%N].
  by rewrite contains_single_absent.
Qed.

Lemma no_char_strip c s : no_char c s -> no_char c (strip s).
Proof.
  intros H. unfold strip, strip_by.
  by apply no_char_rstrip_by, no_char_lstrip_by.
Qed.

Lemma startswith_absent c x s :
  no_char c s -> startswith (c :: x) s = false.
Proof.
  intros H. destruct H as [|d s Hd _]; [done|]. cbn [startswith].
  destruct (N.eqb_spec c d) as [->|]; done.
Qed.

(** The last [::] of a label whose country has no colon. *)
Lemma rfind_country name0 country0 :
  no_char 58%N country0 ->
  rfind (lit "::") (name0 ++ lit "::" ++ country0) = Some (length name0).
Proof.
  intros H. apply rfind_last; [done|..].
  - by rewrite drop_app_length.
  - intros k Hk. rewrite drop_app_ge by lia.
    change (lit "::" ++ country0) with (58%N :: 58%N :: country0).
    destruct (k - length name0) as [|[|j]] eqn:E; [lia|..].
    + change (drop 1 (58%N :: 58%N :: country0)) with (58%N :: country0).
      change (startswith (lit "::") (58%N :: country0))
        with (startswith [58%N] country0).
      by apply startswith_absent.
    + cbn [drop]. apply (startswith_absent 58%N [58%N]).
      by apply Forall_drop.
  - rewrite length_app. lia.
Qed.

(** X13.  A country after the last [::] only sets the country: the other
    three fields are those of the trimmed name before it. *)
Theorem country_suffix name0 country0 :
  no_char 37%N name0 -> no_char 37%N country0 ->
  contains (lit "::") name0 = false -> no_char 58%N country0 ->
  exists n t b,
    parse_config_name (strip name0) = Ok (n, [], t, b)
    /\ parse_config_name (name0 ++ lit "::" ++ country0)
       = Ok (n, strip country0, t, b).
Proof.
  intros Hn Hc Hsep Hcolon.
  destruct (parse_config_name_total (strip name0))
    as (n & c & t & b & E).
  exists n, t, b. revert E. unfold parse_config_name. cbv zeta.
  rewrite (unquote_plain (strip name0)) by by apply no_char_strip.
  rewrite (unquote_plain (name0 ++ _)).
  2:{ apply no_char_app; [done|]. by repeat apply no_char_cons. }
  rewrite contains_strip by done. rewrite contains_app_intro.
  unfold rsplit1. rewrite rfind_country by done.
  unfold first_part, last_part. cbn [hd List.last].
  rewrite take_app_length.
  replace (drop (length name0 + length (lit "::"))
             (name0 ++ lit "::" ++ country0)) with country0
    by (rewrite drop_app_ge by lia;
        by replace (length name0 + length (lit "::") - length name0)
             with 2 by (simpl; lia)).
  set (name1 := if contains (lit ">>") (strip name0) then _ else _).
  unfold mbind, result_bind, bind.
  destruct (if startswith _ _ then _ else _) as [[t' b']|]; [|done].
  by intros [= <- <- <- <-].
Qed.

End Labels.

(** ** More on the prober and the batch *)

Section ProberMore.
Import Prober Batch.

Variable pydantic : conversions.
Variable elapsed_ms : float -> float -> float.
Variable round1 : float -> float.

Local Abbreviation test_tcp_connection :=
  (test_tcp_connection elapsed_ms round1).
Local Abbreviation test_one := (test_one pydantic elapsed_ms round1).


(** X15.  A host between brackets is probed as the host without them. *)
Theorem probe_bracketed_host env host port timeout :
  test_tcp_connection env (VStr (lit "[" ++ host ++ lit "]")) port timeout
  = test_tcp_connection env (VStr host) port timeout.
Proof.
  unfold Prober.test_tcp_connection, strip_brackets, strip_chars.
  change (lit "[" ++ host ++ lit "]") with (91%N :: host ++ [93%N]).
  by rewrite strip_by_wrapped.
Qed.

(** What the prober returns for a server that is a string, whatever the
    port is. *)
Lemma probe_outcome env host port timeout :
  test_tcp_connection env (VStr host) port timeout
  = match open_connection env (strip_chars (lit "[]") host) port timeout with
    | None =>
        Ok (true,
            Float (round1 (elapsed_ms (time_connected env) (time_start env))))
    | Some _ => Ok (false, Int (-1))
    end.
Proof.
  unfold Prober.test_tcp_connection, strip_brackets.
  cbn [mbind result_bind bind].
  destruct (open_connection env _ _ _) as [f|];
    cbn [await mbind result_bind bind try_except];
    by rewrite ?fault_is_Exception, ?await_caught.
Qed.

(** X16.  A result repeats the values of its dictionary that have the
    types of their fields, a missing key taking its default, carries the
    time it was given, and tells a failed probe by the latency -1; the
    probe succeeded exactly when the server of the dictionary is a string
    and the connection to it, stripped of brackets, with the port as the
    dictionary has it, was made. *)
Theorem test_one_echoes env now cfg r :
  test_one env now cfg = Ok r ->
  (forall s, get cfg (lit "id") (VStr []) = VStr s -> config_id r = s)
  /\ (forall s, get cfg (lit "protocol") (VStr []) = VStr s -> protocol r = s)
  /\ (forall s, get cfg (lit "server") (VStr []) = VStr s -> server r = s)
  /\ (forall z, get cfg (lit "port") (VInt 443) = VInt z -> port r = z)
  /\ (forall s, get cfg (lit "name") (VStr []) = VStr s -> name r = s)
  /\ (forall s, get cfg (lit "country") (VStr []) = VStr s -> country r = s)
  /\ (get cfg (lit "telegram_channel") VNone = VNone ->
      telegram_channel r = None)
  /\ (forall s, get cfg (lit "telegram_channel") VNone = VStr s ->
      telegram_channel r = Some s)
  /\ (forall b, get cfg (lit "is_telegram") (VBool false) = VBool b ->
      is_telegram r = b)
  /\ tested_at r = now
  /\ (success r = false -> latency_ms r = Dec true 1 0)
  /\ (success r = true <->
      exists host,
        get cfg (lit "server") (VStr []) = VStr host
        /\ open_connection env (strip_chars (lit "[]") host)
             (get cfg (lit "port") (VInt 443)) (Dec false 3 0)
           = None).
Proof.
  intros T.
  apply test_one_Ok in T
    as (H1 & H2 & H3 & H4 & H5 & H6 & H7 & H8 & latency & P & L & N).
  repeat (split; [intros ? E; rewrite E in *; simpl in *; congruence|]).
  split; [intros E; rewrite E in *; simpl in *; congruence|].
  repeat (split; [intros ? E; rewrite E in *; simpl in *; congruence|]).
  split; [done|]. rewrite L. clear H1 H2 H3 H4 H5 H6 H7 H8 L N. revert P.
  destruct (get cfg (lit "server") (VStr [])) as [| | | |host| |] eqn:Es;
    try (intros [= <- <-]; split; [done|]; split; [done|];
         by intros (? & ? & _)).
  rewrite probe_outcome.
  destruct (open_connection env _ _ _) as [f|] eqn:Eo; intros [= <- <-].
  - split; [done|]. split; [done|]. intros (h & [= <-] & Ho). congruence.
  - split; [done|]. split; [|done]. intros _. by exists host.
Qed.

End ProberMore.

Section BatchMore.
Import Prober Batch Runs.

Variable pydantic : conversions.
Variable elapsed_ms : float -> float -> float.
Variable round1 : float -> float.

Local Abbreviation test_one := (test_one pydantic elapsed_ms round1).
Local Abbreviation step := (step pydantic elapsed_ms round1).
Local Abbreviation run := (run pydantic elapsed_ms round1).
Local Abbreviation invariant := (invariant pydantic elapsed_ms round1).

Implicit Types (ts : list task) (st : state) (configs : list config).

Lemma running_below ts i :
  ts !! i = Some Waiting -> sum_list (running <$> ts) < length ts.
Proof.
  assert (forall l : list task, sum_list (running <$> l) <= length l) as Hle.
  { induction l as [|t l IH]; [done|].
    change (running t + sum_list (running <$> l) <= S (length l)).
    unfold running at 1. destruct (is_running t); lia. }
  revert i. induction ts as [|t ts IH]; intros i H; [done|].
  change (running t + sum_list (running <$> ts) < S (length ts)).
  destruct i as [|i].
  - injection H as ->. pose proof (Hle ts). unfold running at 1. simpl. lia.
  - specialize (IH i H). unfold running at 1. destruct (is_running t); lia.
Qed.

(** X17.  A batch of at most ten dictionaries never waits for the semaphore:
    in every state of a run, every task that has not started can start. *)
Theorem small_batch_never_waits configs evs st i :
  length configs <= 10 ->
  run configs (init configs) evs = Some st ->
  tasks st !! i = Some Waiting ->
  exists st', step configs st (Acquire i) = Some st'.
Proof.
  intros Hsmall R Hi. destruct (reachable _ _ _ _ _ _ R) as [[Hlen Hslots _] _].
  rewrite running_count in Hslots. pose proof (running_below _ _ Hi) as Hlt.
  simpl. rewrite Hi. destruct (semaphore st) as [|v]; [lia|]. by eexists.
Qed.

Lemma step_keeps_done configs st ev st' i outcome :
  step configs st ev = Some st' ->
  tasks st !! i = Some (Done outcome) ->
  tasks st' !! i = Some (Done outcome).
Proof.
  destruct ev as [j|j env now]; simpl.
  - destruct (tasks st !! j) as [[| |]|] eqn:T; try done.
    destruct (semaphore st); [done|]. intros [= <-] H. simpl.
    rewrite list_lookup_insert_ne; [done|]. intros ->. congruence.
  - destruct (tasks st !! j) as [[| |]|] eqn:T; try done.
    destruct (configs !! j); [|done]. intros [= <-] H. simpl.
    rewrite list_lookup_insert_ne; [done|]. intros ->. congruence.
Qed.

(** X18.  What a task has returned or raised is final: no later event of the
    run changes it. *)
Theorem outcomes_are_final configs st evs st' i outcome :
  run configs st evs = Some st' ->
  tasks st !! i = Some (Done outcome) ->
  tasks st' !! i = Some (Done outcome).
Proof.
  revert st. induction evs as [|ev evs IH]; intros st; simpl.
  - by intros [= <-].
  - destruct (step configs st ev) as [st1|] eqn:S; [|done]. intros R H.
    apply (IH st1 R). by eapply step_keeps_done.
Qed.

Lemma released_not_done configs st evs st' i :
  run configs st evs = Some st' ->
  i ∈ released evs ->
  forall outcome, tasks st !! i <> Some (Done outcome).
Proof.
  revert st. induction evs as [|ev evs IH]; intros st; simpl.
  - intros _ H. by apply elem_of_nil in H.
  - destruct (step configs st ev) as [st1|] eqn:S; [|done].
    intros R Hin outcome Hd.
    pose proof (step_keeps_done _ _ _ _ _ _ S Hd) as Hd1.
    destruct ev as [j|j env now].
    + by apply (IH st1 R Hin outcome).
    + unfold released in Hin. cbn [omap list_omap] in Hin.
      fold (released evs) in Hin.
      apply elem_of_cons in Hin as [->|Hin].
      * simpl in S. by rewrite Hd in S.
      * by apply (IH st1 R Hin outcome).
Qed.

(** X19.  No dictionary is probed twice: in a run, whatever state it starts
    from, a task leaves the semaphore at most once. *)
Theorem each_probed_once configs st evs st' :
  run configs st evs = Some st' -> NoDup (released evs).
Proof.
  revert st. induction evs as [|ev evs IH]; intros st; simpl.
  - intros _. constructor.
  - destruct (step configs st ev) as [st1|] eqn:S; [|done]. intros R.
    destruct ev as [j|j env now]; [by apply (IH st1)|].
    unfold released. cbn [omap list_omap]. fold (released evs).
    constructor; [|by apply (IH st1)].
    intros Hin. simpl in S.
    destruct (tasks st !! j) as [[| |]|] eqn:T; try done.
    destruct (configs !! j) as [cfg|]; [|done]. injection S as <-.
    apply (released_not_done _ _ _ _ _ R Hin (test_one env now cfg)).
    simpl. apply list_lookup_insert_eq. by eapply lookup_lt_Some.
Qed.

End BatchMore.

(** ** The subscription endpoint *)

Section Subscription.
Import Server Fetch.

Implicit Types (s x y line content : str).

(** *** Every line is decoded *)

Lemma parse_config_returns raw : exists o, parse_config raw = Ok o.
Proof.
  unfold parse_config, parse_ss, parse_vless, parse_vmess, parse_trojan.
  repeat case_match; try by eexists.
  - apply try_except_returns, raises_parse_ss_with.
  - apply try_except_returns, raises_parse_vless_body.
  - apply try_except_returns, raises_parse_vmess_body.
  - apply try_except_returns, raises_parse_trojan_body.
Qed.

Lemma fetch_line_kept line :
  exists found,
    fetch_line line = Ok found /\ length found <= 1 /\ Forall kept found.
Proof.
  unfold fetch_line. destruct (strip line) as [|c l] eqn:E.
  { exists []. split; [done|]. split; [simpl; lia|constructor]. }
  destruct (parse_config_returns (c :: l)) as [[r|] P]; rewrite P; simpl.
  - exists [(c :: l, r)]. split; [done|]. split; [simpl; lia|].
    constructor; [|done]. split; [done|]. simpl.
    split; [|done]. rewrite <- E. apply strip_idem.
  - exists []. split; [done|]. split; [simpl; lia|constructor].
Qed.

Lemma fetch_lines_kept lines :
  exists found,
    fetch_lines lines = Ok found
    /\ length found <= length lines /\ Forall kept found.
Proof.
  induction lines as [|line lines (rest & IH & Hlen & Hrest)];
    cbn [fetch_lines].
  { exists []. split; [done|]. split; [simpl; lia|constructor]. }
  destruct (fetch_line_kept line) as (found & -> & Hone & Hfound).
  rewrite IH. cbn [mbind result_bind bind].
  exists (found ++ rest). split; [done|]. split.
  - rewrite length_app. simpl. lia.
  - by apply Forall_app_2.
Qed.

(** X20.  The endpoint answers whatever the response and the store do,
    unless a request is cancelled or the process stopped.  After a failed
    request it answers with the error and an empty list.  After a body it
    builds a list in which every entry is a non-empty, trimmed line and the
    record that line decodes to, no longer than the trimmed body has
    lines; the store is called only when the list is not empty, and when
    one of its two calls fails the answer is the error and an empty list;
    else it is the list, with its length as [total]. *)
Theorem fetch_configs_answer delete_many insert_many response :
  raises_Exception response ->
  (forall e, delete_many = Some e -> is_Exception e = true) ->
  (forall found e, insert_many found = Some e -> is_Exception e = true) ->
  exists f,
    fetch_configs delete_many insert_many response = Ok f
    /\ total f = length (configs f)
    /\ Forall kept (configs f)
    /\ match response with
       | Raise e => error f = Some e /\ configs f = []
       | Ok content =>
           exists found,
             fetch_content content = Ok found
             /\ Forall kept found
             /\ length found <= length (split [10%N] (strip content))
             /\ match found with
                | [] => error f = None /\ configs f = []
                | _ :: _ =>
                    match delete_many, insert_many found with
                    | Some e, _ => error f = Some e /\ configs f = []
                    | None, Some e => error f = Some e /\ configs f = []
                    | None, None => error f = None /\ configs f = found
                    end
                end
       end.
Proof.
  intros H Hd Hi. unfold fetch_configs. destruct response as [content|e].
  - cbn [mbind result_bind bind]. unfold fetch_content.
    destruct (fetch_lines_kept (split [10%N] (strip content)))
      as (found & -> & Hlen & Hkept).
    cbn [mbind result_bind bind].
    destruct found as [|entry found].
    { cbn [thrown mbind result_bind bind try_except]. eexists.
      split; [done|]. split; [done|]. split; [constructor|].
      exists []. by repeat split. }
    destruct delete_many as [e|] eqn:D.
    { cbn [thrown mbind result_bind bind try_except].
      rewrite (Hd e eq_refl). eexists.
      split; [done|]. split; [done|]. split; [constructor|].
      exists (entry :: found). by repeat split. }
    cbn [thrown mbind result_bind bind].
    destruct (insert_many (entry :: found)) as [e|] eqn:I.
    { cbn [thrown mbind result_bind bind try_except].
      rewrite (Hi _ e I). eexists.
      split; [done|]. split; [done|]. split; [constructor|].
      exists (entry :: found). rewrite I. by repeat split. }
    cbn [thrown mbind result_bind bind try_except]. eexists.
    split; [done|]. split; [done|]. split; [done|].
    exists (entry :: found). rewrite I. by repeat split.
  - simpl in H. cbn [mbind result_bind bind try_except]. rewrite H.
    eexists. split; [done|]. repeat split. constructor.
Qed.

(** *** Line ends *)

Lemma lstrip_by_expanded (e : N -> str) s :
  (forall c, isspace c = true -> forallb isspace (e c) = true) ->
  (forall c, isspace c = false -> e c = [c]) ->
  lstrip_by isspace (flat_map e s) = flat_map e (lstrip_by isspace s).
Proof.
  intros H1 H2. induction s as [|c s IH]; [done|].
  cbn [flat_map lstrip_by]. destruct (isspace c) eqn:E.
  - by rewrite lstrip_by_padded by by apply H1.
  - rewrite (H2 c E). simpl. by rewrite E, (H2 c E).
Qed.

Lemma rev_flat_map {A B} (f : A -> list B) (l : list A) :
  rev (flat_map f l) = flat_map (fun a => rev (f a)) (rev l).
Proof.
  induction l as [|a l IH]; [done|]. simpl.
  rewrite rev_app_distr, flat_map_app, IH. simpl. by rewrite app_nil_r.
Qed.

Lemma crlf_char_space c :
  isspace c = true -> forallb isspace (crlf_char c) = true.
Proof.
  intros H. unfold crlf_char. destruct (c =? 10)%N; [done|].
  simpl. by rewrite H.
Qed.

Lemma crlf_char_other c : isspace c = false -> crlf_char c = [c].
Proof.
  intros H. unfold crlf_char. destruct (N.eqb_spec c 10) as [->|]; done.
Qed.

(** Trimming a text and putting a carriage return before its line feeds
    can be done in either order. *)
Lemma strip_crlf s : strip (crlf s) = crlf (strip s).
Proof.
  unfold strip, strip_by, crlf.
  rewrite lstrip_by_expanded by auto using crlf_char_space, crlf_char_other.
  set (t := lstrip_by isspace s). unfold rstrip_by.
  rewrite rev_flat_map, lstrip_by_expanded, rev_flat_map.
  - apply flat_map_ext. intros c. apply rev_involutive.
  - intros c H. rewrite forallb_forall. intros d Hd. apply in_rev in Hd.
    pose proof (crlf_char_space c H) as G. rewrite forallb_forall in G.
    by apply G.
  - intros c H. by rewrite crlf_char_other.
Qed.

(** The lines of a text with carriage returns are those of the text
    without, some with a carriage return at the end. *)
Lemma split_crlf s cur :
  Forall2 (fun a b => a = b \/ a = b ++ [13%N])
    (split_from [10%N] (crlf s) cur 0) (split_from [10%N] s cur 0).
Proof.
  revert cur. induction s as [|c s IH]; intros cur.
  { constructor; [by left|constructor]. }
  unfold crlf. cbn [flat_map]. fold (crlf s). unfold crlf_char.
  cbn [split_from startswith].
  destruct (N.eqb_spec c 10) as [->|Hc].
  - cbn [app split_from startswith length Nat.sub].
    change (13 =? 10)%N with false. change (10 =? 10)%N with true.
    cbn [andb]. constructor; [by right|]. apply IH.
  - cbn [app split_from startswith].
    replace (10 =? c)%N with false
      by (symmetry; apply N.eqb_neq; congruence).
    cbn [andb]. apply IH.
Qed.

Lemma fetch_line_cr line : fetch_line (line ++ [13%N]) = fetch_line line.
Proof.
  unfold fetch_line, strip. by rewrite strip_by_snoc_gone.
Qed.

Lemma fetch_lines_cr la lb :
  Forall2 (fun a b => a = b \/ a = b ++ [13%N]) la lb ->
  fetch_lines la = fetch_lines lb.
Proof.
  induction 1 as [|a b la lb [->| ->] _ IH]; [done|..];
    cbn [fetch_lines]; by rewrite ?fetch_line_cr, IH.
Qed.

(** X21.  The line ends of Windows make no difference: a body with a carriage
    return before every line feed gives the same list. *)
Theorem fetch_content_crlf content :
  fetch_content (crlf content) = fetch_content content.
Proof.
  unfold fetch_content. rewrite strip_crlf.
  apply fetch_lines_cr, split_crlf.
Qed.

End Subscription.

(** ** The stored results *)

Section StoredResults.
Import Batch Store.

Implicit Types (r d : TestResult) (docs : collection) (id : str).

Lemma update_one_ids r docs :
  config_id <$> update_one r docs
  = if bool_decide (config_id r ∈ config_id <$> docs)
    then config_id <$> docs
    else (config_id <$> docs) ++ [config_id r].
Proof.
  induction docs as [|d docs IH]; [done|]. cbn [update_one].
  destruct (bool_decide_reflect (config_id d = config_id r)) as [E|E].
  - rewrite bool_decide_eq_true_2 by (rewrite fmap_cons, E; apply list_elem_of_here).
    by rewrite !fmap_cons, E.
  - rewrite !fmap_cons, IH.
    destruct (bool_decide_reflect (config_id r ∈ config_id <$> docs))
      as [H|H].
    + by rewrite bool_decide_eq_true_2 by by apply list_elem_of_further.
    + rewrite bool_decide_eq_false_2; [done|].
      intros G. apply elem_of_cons in G as [G|G]; [by apply E|done].
Qed.

Lemma update_one_NoDup r docs :
  NoDup (config_id <$> docs) -> NoDup (config_id <$> update_one r docs).
Proof.
  intros H. rewrite update_one_ids.
  destruct (bool_decide_reflect (config_id r ∈ config_id <$> docs))
    as [G|G]; [done|].
  apply NoDup_app. split; [done|]. split; [|apply NoDup_singleton].
  intros x Hx Hr. apply list_elem_of_singleton in Hr as ->. done.
Qed.

(** X22.  Saving results keeps at most one document for a [config_id]. *)
Theorem save_results_one_per_id results docs :
  NoDup (config_id <$> docs) ->
  NoDup (config_id <$> save_results results docs).
Proof.
  unfold save_results. revert docs.
  induction results as [|r results IH]; intros docs H; [done|].
  simpl. by apply IH, update_one_NoDup.
Qed.

Lemma find_one_update_one id r docs :
  find_one id (update_one r docs)
  = if bool_decide (config_id r = id) then Some r else find_one id docs.
Proof.
  unfold find_one. induction docs as [|d docs IH]; cbn [update_one List.find].
  { by destruct (bool_decide (config_id r = id)). }
  destruct (bool_decide_reflect (config_id d = config_id r)) as [E|E];
    cbn [List.find].
  - rewrite E. by destruct (bool_decide (config_id r = id)).
  - destruct (bool_decide_reflect (config_id d = id)) as [G|G].
    + rewrite bool_decide_eq_false_2; [done|]. congruence.
    + apply IH.
Qed.

Lemma find_snoc {A} (f : A -> bool) (l : list A) (a : A) :
  List.find f (l ++ [a])
  = match List.find f l with
    | Some x => Some x
    | None => if f a then Some a else None
    end.
Proof.
  induction l as [|b l IH]; simpl; [done|]. by destruct (f b).
Qed.

(** X23.  After saving, the document of a [config_id] is the last of the
    results that carry it, and the document the store had when none
    does. *)
Theorem save_results_last_wins id results docs :
  find_one id (save_results results docs)
  = match find_one id (rev results) with
    | Some r => Some r
    | None => find_one id docs
    end.
Proof.
  unfold save_results. revert docs.
  induction results as [|r results IH]; intros docs; [done|].
  cbn [foldl rev]. rewrite IH, find_one_update_one.
  unfold find_one at 3. rewrite find_snoc. fold (find_one id (rev results)).
  destruct (find_one id (rev results)); [done|].
  by destruct (bool_decide (config_id r = id)).
Qed.

End StoredResults.

(** ** The records of vmess lines *)

Section VmessRecords.
Import Server.

(** X24.  A vmess line has a record exactly when its payload is a JSON
    object whose [add] and [ps], the empty string standing for a missing
    one, are strings and whose [port], 443 standing for a missing one, is a
    value [int] accepts; the record has the trimmed [add], that port and
    the fields of the label [ps]. *)
Theorem vmess_record_iff line r :
  parse_vmess line = Ok (Some r)
  <-> exists d host label,
        vmess_payload line = Ok (VDict d)
        /\ get d (lit "add") (VStr []) = VStr host
        /\ get d (lit "ps") (VStr []) = VStr label
        /\ int (get d (lit "port") (VInt 443)) = Ok (port r)
        /\ protocol r = lit "vmess"
        /\ server r = strip host
        /\ parse_config_name label
           = Ok (name r, country r, telegram_channel r, is_telegram r).
Proof.
  split.
  - intros H. apply try_except_Some in H. revert H.
    unfold parse_vmess_body, mbind, result_bind, bind.
    destruct (vmess_payload line) as [data|]; [|done].
    destruct data as [| | | | | |d]; try done. simpl.
    destruct (int _) as [p|] eqn:I; [|done].
    destruct (get d (lit "ps") _) as [| | | |label| |] eqn:Eps; try done.
    simpl.
    destruct (parse_config_name label) as [[[[? ?] ?] ?]|] eqn:E; [|done].
    destruct (get d (lit "add") _) as [| | | |host| |] eqn:Eadd; try done.
    simpl. intros [= <-]. simpl. by exists d, host, label.
  - intros (d & host & label & Hp & Hadd & Hps & Hport & Hproto & Hs & Hn).
    unfold parse_vmess, parse_vmess_body, get_of.
    rewrite Hp. cbn [mbind result_bind bind].
    rewrite Hadd, Hps, Hport. cbn [mbind result_bind bind].
    unfold parse_config_name_of. rewrite Hn. simpl.
    destruct r. simpl in *. by subst.
Qed.

End VmessRecords.

(** ** The properties on given inputs *)

Section Examples.
Import Server Spec Lines Prober Batch Runs Fetch Store.

Local Ltac port_text :=
  split; [split; [discriminate|by vm_compute]|apply Nat.leb_le; by vm_compute].

Local Ltac no_chars :=
  vm_compute;
  repeat first
    [ apply List.Forall_nil
    | apply List.Forall_cons; [intro; discriminate|] ].

Lemma trojan_round_trip_witness :
  parse_trojan (lit "trojan://pw@example.com:8443/?sni=a#Node::DE")
  = Ok (Some (Config (lit "trojan") (lit "example.com") 8443
                (lit "Node") (lit "DE") None false)).
Proof.
  destruct (trojan_round_trip (lit "pw") (lit "example.com")
              (Some (lit "8443")) 1 (Some (lit "sni=a"))
              (Some (lit "Node::DE")))
    as (n & c & t & b & E & H).
  1-4: unfold no_char; no_chars.
  - by vm_compute.
  - port_text.
  - unfold no_char; no_chars.
  - vm_compute in E. injection E as <- <- <- <-. exact H.
Defined.

Lemma vless_round_trip_witness :
  parse_vless (lit "vless://id@example.com/?type=ws#Node")
  = Ok (Some (Config (lit "vless") (lit "example.com") 443
                (lit "Node") [] None false)).
Proof.
  destruct (vless_round_trip (lit "id") (lit "example.com") None 1
              (Some (lit "type=ws")) (Some (lit "Node")))
    as (n & c & t & b & E & H).
  1-4: unfold no_char; no_chars.
  - by vm_compute.
  - by vm_compute.
  - split; [unfold no_char; no_chars|by vm_compute].
  - unfold no_char; no_chars.
  - vm_compute in E. injection E as <- <- <- <-. exact H.
Defined.

Lemma vless_bracket_round_trip_witness :
  parse_vless (lit "vless://id@[::1]:8443?x=1#v6")
  = Ok (Some (Config (lit "vless") (lit "[::1]") 8443 (lit "v6") []
                None false)).
Proof.
  destruct (vless_bracket_round_trip (lit "id") (lit "::1")
              (Some (lit "8443")) 0 (Some (lit "x=1")) (Some (lit "v6")))
    as (n & c & t & b & E & H).
  1-5: unfold no_char; no_chars.
  - port_text.
  - unfold no_char; no_chars.
  - vm_compute in E. injection E as <- <- <- <-. exact H.
Defined.

Lemma trojan_bracket_without_port_witness :
  parse_trojan (lit "trojan://pw@[2001:db8::1]/?x=1#v6") = Ok None.
Proof.
  apply (trojan_bracket_without_port (lit "pw") (lit "2001:db8::1") 1
           (Some (lit "x=1")) (Some (lit "v6"))).
  1-4: unfold no_char; no_chars.
  - by vm_compute.
  - unfold no_char; no_chars.
Defined.

Lemma ss_plain_round_trip_witness :
  parse_ss (lit "ss://YWVzOnB3@1.2.3.4:8388?plugin=x#Home")
  = Ok (Some (Config (lit "shadowsocks") (lit "1.2.3.4") 8388 (lit "Home")
                [] None false)).
Proof.
  destruct (ss_plain_round_trip (lit "YWVzOnB3") (lit "1.2.3.4")
              (lit "8388") 0 (Some (lit "plugin=x")) (Some (lit "Home")))
    as (n & c & t & b & E & H).
  1-4: unfold no_char; no_chars.
  - by vm_compute.
  - port_text.
  - split; unfold no_char; no_chars.
  - by left.
  - vm_compute in E. injection E as <- <- <- <-. exact H.
Defined.

Lemma ss_slash_before_query_witness :
  parse_ss (lit "ss://YWVzOnB3@1.2.3.4:8388/?plugin=x#Home") = Ok None.
Proof.
  apply (ss_slash_before_query (lit "YWVzOnB3") (lit "1.2.3.4")
           (lit "8388") 0 (lit "plugin=x") (Some (lit "Home"))).
  1-4: unfold no_char; no_chars.
  - split; [discriminate|by vm_compute].
  - unfold no_char; no_chars.
  - unfold no_char; no_chars.
Defined.

Lemma ss_plain_without_port_witness :
  parse_ss (lit "ss://YWVzOnB3@example.com/?plugin=x#Home") = Ok None.
Proof.
  apply (ss_plain_without_port (lit "YWVzOnB3") (lit "example.com") 1
           (Some (lit "plugin=x")) (Some (lit "Home"))).
  1-5: unfold no_char; no_chars.
  split; unfold no_char; no_chars.
Defined.

Lemma parse_config_protocol_witness :
  startswith (lit "vless://") (strip (lit "  vless://id@h:1 ")) = true
  /\ Server.protocol (Config (lit "vless") (lit "h") 1 [] [] None false)
     = lit "vless".
Proof.
  destruct (parse_config_protocol (lit "  vless://id@h:1 ")
              (Config (lit "vless") (lit "h") 1 [] [] None false))
    as [[H _]|[H|[[H _]|[H _]]]];
    [by vm_compute|by vm_compute in H|exact H|by vm_compute in H..].
Defined.

Lemma record_server_trimmed_witness :
  strip (lit "host") = lit "host".
Proof.
  exact (record_server_trimmed (lit "trojan://pw@ host :443")
           (Config (lit "trojan") (lit "host") 443 [] [] None false)
           ltac:(by vm_compute)).
Defined.

Lemma parse_config_ignores_padding_witness :
  parse_config ([32%N; 9%N] ++ lit "trojan://pw@h:1" ++ [13%N; 10%N])
  = parse_config (lit "trojan://pw@h:1").
Proof.
  apply parse_config_ignores_padding; by vm_compute.
Defined.

Lemma name_without_arrows_witness :
  contains (lit ">>") (lit "Fast > Node") = false.
Proof.
  apply (name_without_arrows (lit ">> Fast >>> Node") _ [] None false).
  by vm_compute.
Defined.

Lemma telegram_flag_witness :
  true = (contains (lit "@") (strip (lit "join t.me/abc"))
          || existsb (fun tag => contains tag (lower (strip (lit "join t.me/abc"))))
               telegram_tags)
  /\ (true = true <-> Some (lit "join t.me/abc") <> None).
Proof.
  apply (telegram_flag (lit "join t.me/abc") _ []). by vm_compute.
Defined.

Lemma country_suffix_witness :
  parse_config_name (lit " My Node :: DE ")
  = Ok (lit "My Node", lit "DE", None, false).
Proof.
  destruct (country_suffix (lit " My Node ") (lit " DE "))
    as (n & t & b & E & H).
  1-2: unfold no_char; no_chars.
  - by vm_compute.
  - unfold no_char; no_chars.
  - vm_compute in E. injection E as <- <- <-. exact H.
Defined.


Lemma test_one_echoes_witness :
  exists r,
    test_one int_conversion no_time unrounded idle_env
      (lit "2026-01-01T00:00:00+00:00") numeral_port
    = Ok r
    /\ config_id r = lit "a" /\ Batch.port r = 54051%Z
    /\ tested_at r = lit "2026-01-01T00:00:00+00:00" /\ success r = true.
Proof.
  destruct (test_one int_conversion no_time unrounded idle_env
              (lit "2026-01-01T00:00:00+00:00") numeral_port)
    as [r|] eqn:E; [|by vm_compute in E].
  exists r. split; [done|].
  destruct (test_one_echoes _ _ _ _ _ _ r E)
    as (H1 & _ & _ & _ & _ & _ & _ & _ & _ & H10 & _ & H12).
  split; [by apply H1|]. split.
  { vm_compute in E. by injection E as <-. }
  split; [done|]. apply H12. by exists [].
Defined.

Lemma small_batch_never_waits_witness :
  exists st st',
    run no_conversion no_time unrounded two_configs (init two_configs)
      [Acquire 1]
    = Some st
    /\ step no_conversion no_time unrounded two_configs st (Acquire 0)
       = Some st'.
Proof.
  destruct (run no_conversion no_time unrounded two_configs
              (init two_configs) [Acquire 1])
    as [st|] eqn:R; [|by vm_compute in R].
  destruct (small_batch_never_waits no_conversion no_time unrounded
              two_configs [Acquire 1] st 0) as [st' H].
  - simpl. lia.
  - exact R.
  - vm_compute in R. injection R as <-. by vm_compute.
  - by exists st, st'.
Defined.

Lemma outcomes_are_final_witness :
  exists st st' outcome,
    run no_conversion no_time unrounded two_configs (init two_configs)
      [Acquire 1; Release 1 idle_env []] = Some st
    /\ run no_conversion no_time unrounded two_configs st
         [Acquire 0; Release 0 idle_env []] = Some st'
    /\ tasks st !! 1 = Some (Done outcome)
    /\ tasks st' !! 1 = Some (Done outcome).
Proof.
  destruct (run no_conversion no_time unrounded two_configs
              (init two_configs) [Acquire 1; Release 1 idle_env []])
    as [st|] eqn:R; [|by vm_compute in R].
  destruct (run no_conversion no_time unrounded two_configs st
              [Acquire 0; Release 0 idle_env []])
    as [st'|] eqn:R'.
  2:{ vm_compute in R. injection R as <-. by vm_compute in R'. }
  destruct (tasks st !! 1) as [[| |outcome]|] eqn:T.
  1,2,4: vm_compute in R; injection R as <-; by vm_compute in T.
  exists st, st', outcome. repeat split; try done.
  by apply (outcomes_are_final no_conversion no_time unrounded two_configs
              st _ st' 1 outcome R').
Defined.

Lemma each_probed_once_witness : NoDup (released two_probes).
Proof.
  destruct (run no_conversion no_time unrounded two_configs
              (init two_configs) two_probes)
    as [st|] eqn:R; [|by vm_compute in R].
  exact (each_probed_once no_conversion no_time unrounded two_configs _
           two_probes st R).
Defined.

Lemma fetch_configs_answer_witness :
  (exists f,
     fetch_configs None eight_byte_insert
       (Ok (lit "trojan://pw@h:1" ++ [13%N; 10%N] ++ lit "junk"))
     = Ok f
     /\ error f = None /\ total f = 1
     /\ configs f
        = [(lit "trojan://pw@h:1",
            Config (lit "trojan") (lit "h") 1 [] [] None false)])
  /\ (exists f,
        fetch_configs None eight_byte_insert
          (Ok (lit "trojan://pw@h:10000000000000000000000"))
        = Ok f
        /\ error f = Some OverflowError /\ total f = 0 /\ configs f = [])
  /\ (exists f,
        fetch_configs None eight_byte_insert (Raise TimeoutError) = Ok f
        /\ error f = Some TimeoutError /\ configs f = []).
Proof.
  assert (forall e : exn, None = Some e -> is_Exception e = true) as Hd
    by done.
  assert (forall found e,
            eight_byte_insert found = Some e -> is_Exception e = true)
    as Hi.
  { intros found e. unfold eight_byte_insert.
    destruct (forallb _ found); [done|]. by intros [= <-]. }
  pose proof (fun response H =>
                fetch_configs_answer None eight_byte_insert response H Hd Hi)
    as A.
  split; [|split].
  - destruct (A (Ok (lit "trojan://pw@h:1" ++ [13%N; 10%N] ++ lit "junk")))
      as (f & E & H1 & _ & found & F & _ & _ & H4); [done|].
    exists f. split; [exact E|].
    vm_compute in F. injection F as <-. cbv iota in H4.
    match type of H4 with
    | context [eight_byte_insert ?l] =>
        assert (eight_byte_insert l = None) as I by by vm_compute
    end.
    rewrite I in H4. destruct H4 as [H4 H5]. rewrite H1, H5.
    by repeat split.
  - destruct (A (Ok (lit "trojan://pw@h:10000000000000000000000")))
      as (f & E & H1 & _ & found & F & _ & _ & H4); [done|].
    exists f. split; [exact E|].
    vm_compute in F. injection F as <-. cbv iota in H4.
    match type of H4 with
    | context [eight_byte_insert ?l] =>
        assert (eight_byte_insert l = Some OverflowError) as I
          by by vm_compute
    end.
    rewrite I in H4. destruct H4 as [H4 H5]. rewrite H1, H5.
    by repeat split.
  - destruct (A (Raise TimeoutError)) as (f & E & _ & _ & H3 & H4); [done|].
    by exists f.
Defined.

Lemma save_results_one_per_id_witness :
  NoDup
    (config_id
       <$> save_results
             [sample_result "a" "h1" false; sample_result "b" "h2" true;
              sample_result "a" "h1" true] []).
Proof. apply save_results_one_per_id. constructor. Defined.

Lemma vmess_record_iff_witness :
  exists d host label,
    vmess_payload (lit "vmess://e30") = Ok (VDict d)
    /\ get d (lit "add") (VStr []) = VStr host
    /\ get d (lit "ps") (VStr []) = VStr label
    /\ int (get d (lit "port") (VInt 443)) = Ok 443%Z.
Proof.
  destruct (proj1 (vmess_record_iff (lit "vmess://e30")
                     (Config (lit "vmess") [] 443 [] [] None false)))
    as (d & host & label & H1 & H2 & H3 & H4 & _); [by vm_compute|].
  by exists d, host, label.
Defined.

End Examples.
